(** * Machine-learning repository: endpoint resolution and prediction dispatch

    A shallow embedding of
    [server/src/repositories/machine-learning.repository.ts]. The asynchronous
    methods of [MachineLearningRepository] become computations in a state and
    exception monad over an abstract outside world (network, file system) that
    also records every observable event (requests, file reads, log lines). *)

From Stdlib Require Import List NArith Bool Lia String Ascii PrimFloat.
From Stdlib Require DecimalPos DecimalN.
Import ListNotations.

Local Open Scope N_scope.
Local Open Scope list_scope.

(** ** JavaScript strings

    A JavaScript string is a sequence of UTF-16 code units. *)

Module JsString.

Definition jsstring := list N.

(** The code units of an ASCII literal. *)
Definition lit (s : string) : jsstring :=
  map N_of_ascii (list_ascii_of_string s).

Definition semicolon : N := 59.
Definition comma : N := 44.
Definition dquote : N := 34.

(** [String.prototype.split(sep)] for a separator of one code unit: the
    segments between the occurrences of [sep], in order. *)
Fixpoint split (sep : N) (s : jsstring) : list jsstring :=
  match s with
  | [] => [[]]
  | c :: s' =>
      if c =? sep then [] :: split sep s'
      else match split sep s' with
           | seg :: segs => (c :: seg) :: segs
           | [] => [[c]]
           end
  end.

(** [Array.prototype.join(sep)]. *)
Fixpoint join (sep : jsstring) (l : list jsstring) : jsstring :=
  match l with
  | [] => []
  | [x] => x
  | x :: rest => x ++ sep ++ join sep rest
  end.

(** ECMAScript [WhiteSpace] and [LineTerminator] code points, the ones
    [String.prototype.trim] strips; all of them are single code units. *)
Definition is_white_space (c : N) : bool :=
  (c =? 9) || (c =? 10) || (c =? 11) || (c =? 12) || (c =? 13) || (c =? 32)
  || (c =? 160) || (c =? 5760) || ((8192 <=? c) && (c <=? 8202))
  || (c =? 8232) || (c =? 8233) || (c =? 8239) || (c =? 8287)
  || (c =? 12288) || (c =? 65279).

Fixpoint trimStart (s : jsstring) : jsstring :=
  match s with
  | [] => []
  | c :: s' => if is_white_space c then trimStart s' else s
  end.

Definition trimEnd (s : jsstring) : jsstring := rev (trimStart (rev s)).

Definition trim (s : jsstring) : jsstring := trimEnd (trimStart s).

(** Substring test, [String.prototype.includes]. *)
Fixpoint starts_with (p s : jsstring) : bool :=
  match p, s with
  | [], _ => true
  | _ :: _, [] => false
  | a :: p', b :: s' => (a =? b) && starts_with p' s'
  end.

Fixpoint includes (s needle : jsstring) : bool :=
  starts_with needle s ||
  match s with
  | [] => false
  | _ :: s' => includes s' needle
  end.

(** Decimal rendering of a non-negative integer, as [Number.prototype.toString]
    gives it for the integers an HTTP status can be. *)
Fixpoint digits (d : Decimal.uint) : jsstring :=
  match d with
  | Decimal.Nil => []
  | Decimal.D0 d => 48 :: digits d
  | Decimal.D1 d => 49 :: digits d
  | Decimal.D2 d => 50 :: digits d
  | Decimal.D3 d => 51 :: digits d
  | Decimal.D4 d => 52 :: digits d
  | Decimal.D5 d => 53 :: digits d
  | Decimal.D6 d => 54 :: digits d
  | Decimal.D7 d => 55 :: digits d
  | Decimal.D8 d => 56 :: digits d
  | Decimal.D9 d => 57 :: digits d
  end.

Definition Number_toString (n : N) : jsstring := digits (N.to_uint n).

(** Splitting and trimming as relations, stated without the algorithms:
    [segs] are the segments of [s] between the occurrences of [sep]. *)
Definition is_split_of (segs : list jsstring) (sep : N) (s : jsstring) : Prop :=
  segs <> [] /\ join [sep] segs = s /\ Forall (fun seg => ~ In sep seg) segs.

(** [c] is [seg] without the white space at its two ends. *)
Definition is_trim_of (c seg : jsstring) : Prop :=
  exists l r,
    seg = l ++ c ++ r
    /\ Forall (fun x => is_white_space x = true) l
    /\ Forall (fun x => is_white_space x = true) r
    /\ (forall x t, c = x :: t -> is_white_space x = false)
    /\ (forall x t, c = t ++ [x] -> is_white_space x = false).

(** The number a string of decimal digits denotes. *)
Definition read_digits (s : jsstring) : N :=
  fold_left (fun acc c => 10 * acc + (c - 48)) s 0.

End JsString.

Import JsString.

(** ** Values exchanged with the outside world *)

(** What the program can observe of a rejection raised by a collaborator
    ([fetch], [readFile], [Response.json]): its rendering as a string, and the
    rendering of its [cause] property when that property is truthy. *)
Record Foreign := {
  foreign_string : jsstring;
  foreign_cause : option jsstring
}.

(** Thrown values. *)
Inductive exn :=
| Error (message : jsstring)       (* [new Error(message)], thrown by this module *)
| TypeError (message : jsstring)   (* thrown by the runtime *)
| Rejection (e : Foreign).         (* a collaborator's rejection, passed on *)

(** Decoded JSON data, and what a property read may give besides:
    [undefined], and the values of the runtime that are not data (the
    functions and objects found on a prototype), each named by the property
    that holds it, as in [String.prototype.search]. *)
#[local] Set Warnings "-register-all".
Inductive JSValue :=
| JUndefined
| JNull
| JBool (b : bool)
| JNumber (x : PrimFloat.float)
| JString (s : jsstring)
| JArray (items : list JSValue)
| JObject (props : list (jsstring * JSValue))
| JBuiltin (name : jsstring).

#[local] Set Warnings "register-all".

Fixpoint jsstring_eqb (a b : jsstring) : bool :=
  match a, b with
  | [], [] => true
  | x :: a', y :: b' => (x =? y) && jsstring_eqb a' b'
  | _, _ => false
  end.

(** Own-property lookup in the property list of an object. *)
Fixpoint lookup (props : list (jsstring * JSValue)) (k : jsstring) : JSValue :=
  match props with
  | [] => JUndefined
  | (k', v) :: rest => if jsstring_eqb k' k then v else lookup rest k
  end.

(** [obj[k] = v] on a property list: an existing key keeps its place. *)
Fixpoint set_prop (props : list (jsstring * JSValue)) (k : jsstring) (v : JSValue)
  : list (jsstring * JSValue) :=
  match props with
  | [] => [(k, v)]
  | (k', v') :: rest =>
      if jsstring_eqb k' k then (k', v) :: rest else (k', v') :: set_prop rest k v
  end.

(** An object literal [{ k1: v1, ..., kn: vn }]. *)
Definition object (fields : list (jsstring * JSValue)) : JSValue :=
  JObject (fold_left (fun props kv => set_prop props (fst kv) (snd kv)) fields []).

Definition Buffer := list N.

Inductive FormDataEntryValue :=
| FormString (s : jsstring)
| FormBlob (parts : list Buffer).

(** [FormData]: the entries in the order they were appended. *)
Definition FormData := list (jsstring * FormDataEntryValue).

Definition append (fd : FormData) (name : jsstring) (v : FormDataEntryValue) : FormData :=
  fd ++ [(name, v)].

Inductive Method := GET | POST.

Record Request := {
  req_url : jsstring;
  req_method : Method;
  req_body : option FormData
}.

Record Response := {
  status : N;
  statusText : jsstring;
  json_body : Foreign + JSValue    (* what [res.json()] settles to *)
}.

(** How a [fetch] promise settles. *)
Inductive FetchResult :=
| Responded (res : Response)
| Rejected (e : Foreign).

(** The value bound to [r] in [find_working_server]: the server's response, or
    the object the [catch] handler returns. *)
Inductive ProbeResult :=
| FromServer (res : Response)
| Nop (nop_status : N) (nop_text : jsstring).

Definition probe_status (r : ProbeResult) : N :=
  match r with
  | FromServer res => status res
  | Nop s _ => s
  end.

Inductive Event :=
| EvFetch (r : Request)
| EvReadFile (path : jsstring)
| EvWarn (msg : jsstring)
| EvDebug (msg : jsstring).

Definition fetches (tr : list Event) : list Request :=
  flat_map (fun ev => match ev with EvFetch r => [r] | _ => [] end) tr.

Definition is_post (r : Request) : bool :=
  match req_method r with POST => true | GET => false end.

Definition posts (tr : list Event) : list Request := filter is_post (fetches tr).

(** The paths of the files read, in order. *)
Definition reads (tr : list Event) : list jsstring :=
  flat_map (fun ev => match ev with EvReadFile path => [path] | _ => [] end) tr.

Record ModelPayload := {
  imagePath : option jsstring;   (* [Some] when ['imagePath' in payload] *)
  text : option jsstring         (* [Some] when ['text' in payload] *)
}.

Inductive ModelTask := FACIAL_RECOGNITION | SEARCH.
Inductive ModelType := DETECTION | RECOGNITION | VISUAL | TEXTUAL.

Record FaceDetectionOptions := {
  fd_modelName : jsstring;
  fd_minScore : PrimFloat.float
}.

Record CLIPConfig := { clip_modelName : jsstring }.

Inductive Outcome (A : Type) :=
| Ok (a : A)
| Throw (e : exn).
Arguments Ok {A} a.
Arguments Throw {A} e.

(** An HTTP status code is a three-digit integer. *)
Definition is_http_status (s : N) : bool := (100 <=? s) && (s <=? 999).

Definition errorPrefix : jsstring := lit "Machine learning request".

(** [`${error?.cause || error}`] *)
Definition cause_or_error (error : exn) : jsstring :=
  match error with
  | Error m => lit "Error: " ++ m
  | TypeError m => lit "TypeError: " ++ m
  | Rejection e =>
      match foreign_cause e with
      | Some c => c
      | None => foreign_string e
      end
  end.

(** Whether [k] is an own property in a property list. *)
Definition has_own (props : list (jsstring * JSValue)) (k : jsstring) : bool :=
  existsb (fun kv => jsstring_eqb (fst kv) k) props.

(** The properties every object inherits from [Object.prototype]. *)
Definition Object_prototype : list jsstring :=
  map lit ["constructor"; "__defineGetter__"; "__defineSetter__";
           "hasOwnProperty"; "__lookupGetter__"; "__lookupSetter__";
           "isPrototypeOf"; "propertyIsEnumerable"; "toString"; "valueOf";
           "__proto__"; "toLocaleString"]%string.

Definition on_Object_prototype (k : jsstring) : bool :=
  existsb (jsstring_eqb k) Object_prototype.

(** ** The repository, over an abstract outside world *)

(** What the repository runs against: the network and the file system with
    their state, and the pure runtime services it calls. *)
Class Runtime := {
  World : Type;
  net_fetch : Request -> World -> FetchResult * World;
  fs_readFile : jsstring -> World -> (Foreign + Buffer) * World;
  (** [new URL(input, base)]: the resulting href, or [None] when the
      constructor throws. *)
  URL_new : jsstring -> jsstring -> option jsstring;
  JSON_stringify : JSValue -> jsstring;
  (** The string values of the enums [ModelTask] and [ModelType], declared in
      [src/interfaces/machine-learning.interface]. *)
  ModelTask_value : ModelTask -> jsstring;
  ModelType_value : ModelType -> jsstring;
  (** The enum values are names of their own: none is a member of
      [Object.prototype]. *)
  ModelTask_value_plain :
    forall t, on_Object_prototype (ModelTask_value t) = false;
  (** [v[k]] for a decoded value that is neither an object nor [null]: an
      array, a string, a number or a boolean. The runtime finds elements,
      characters and [length] on the value and the rest on its prototype. *)
  primitive_get : JSValue -> jsstring -> JSValue
}.

Section Repository.

Context {rt : Runtime}.

Record State := {
  world : World;
  trace : list Event
}.

(** *** Asynchronous computations: state and exceptions *)

Definition M (A : Type) : Type := State -> Outcome A * State.

Definition ret {A} (a : A) : M A := fun st => (Ok a, st).

Definition throw {A} (e : exn) : M A := fun st => (Throw e, st).

Definition bind {A B} (m : M A) (k : A -> M B) : M B :=
  fun st =>
    match m st with
    | (Ok a, st') => k a st'
    | (Throw e, st') => (Throw e, st')
    end.

(** [promise.catch(handler)] *)
Definition catch {A} (m : M A) (handler : exn -> M A) : M A :=
  fun st =>
    match m st with
    | (Ok a, st') => (Ok a, st')
    | (Throw e, st') => handler e st'
    end.

Notation "x <- m ;; k" := (bind m (fun x => k))
  (at level 61, m at next level, right associativity).
Notation "m ;;; k" := (bind m (fun _ => k))
  (at level 61, right associativity).

Definition emit (ev : Event) (st : State) : State :=
  {| world := world st; trace := trace st ++ [ev] |}.

Definition logger_warn (msg : jsstring) : M unit := fun st => (Ok tt, emit (EvWarn msg) st).
Definition logger_debug (msg : jsstring) : M unit := fun st => (Ok tt, emit (EvDebug msg) st).

Definition fetch (r : Request) : M Response :=
  fun st =>
    let (o, w) := net_fetch r (world st) in
    let st' := {| world := w; trace := trace st ++ [EvFetch r] |} in
    match o with
    | Responded res => (Ok res, st')
    | Rejected e => (Throw (Rejection e), st')
    end.

Definition readFile (path : jsstring) : M Buffer :=
  fun st =>
    let (o, w) := fs_readFile path (world st) in
    let st' := {| world := w; trace := trace st ++ [EvReadFile path] |} in
    match o with
    | inr bytes => (Ok bytes, st')
    | inl e => (Throw (Rejection e), st')
    end.

Definition res_json (res : Response) : M JSValue :=
  match json_body res with
  | inr v => ret v
  | inl e => throw (Rejection e)
  end.

Definition new_URL (input base : jsstring) : M jsstring :=
  match URL_new input base with
  | Some href => ret href
  | None => throw (TypeError (lit "Invalid URL"))
  end.

Definition nullish (v : JSValue) : bool :=
  match v with
  | JUndefined | JNull => true
  | _ => false
  end.

(** The value of the property [k] of a value other than [null] and
    [undefined]. On a decoded object it is the own property when there is
    one, else what [Object.prototype] holds under [k], else [undefined]; on
    any other value the runtime decides. *)
Definition prop (v : JSValue) (k : jsstring) : JSValue :=
  match v with
  | JObject props =>
      if has_own props k then lookup props k
      else if on_Object_prototype k then JBuiltin (lit "Object.prototype." ++ k)
      else JUndefined
  | _ => primitive_get v k
  end.

Definition cannot_read (v : JSValue) (k : jsstring) : jsstring :=
  lit "Cannot read properties of "
  ++ match v with
     | JNull => lit "null"
     | _ => lit "undefined"
     end
  ++ lit " (reading '" ++ k ++ lit "')".

(** Property read [v[k]]; reading a property of [null] or [undefined] throws. *)
Definition get (v : JSValue) (k : jsstring) : M JSValue :=
  if nullish v then throw (TypeError (cannot_read v k))
  else ret (prop v k).

(** *** [find_working_server] *)

Definition mkGET (path : jsstring) : Request :=
  {| req_url := path; req_method := GET; req_body := None |}.

Definition ping_failed (path : jsstring) (error : exn) : jsstring :=
  errorPrefix ++ lit " ping to " ++ [dquote] ++ path ++ [dquote]
  ++ lit " failed with " ++ cause_or_error error.

(** [await fetch(path, { method: 'GET' }).catch(...)] *)
Definition ping (path : jsstring) : M ProbeResult :=
  catch (res <- fetch (mkGET path) ;; ret (FromServer res))
        (fun error =>
           logger_warn (ping_failed path error) ;;;
           ret (Nop 0 (lit "nop"))).

Definition no_server_found : jsstring :=
  errorPrefix ++ lit ": no machine learning server found.".

(** The [for (const path of paths)] loop and the [throw] after it. *)
Fixpoint scan (paths : list jsstring) : M jsstring :=
  match paths with
  | [] => throw (Error no_server_found)
  | path :: rest =>
      r <- ping path ;;
      if probe_status r =? 200
      then logger_debug (lit "Response from " ++ path) ;;; ret path
      else scan rest
  end.

(** [url.split(';').map((item) => item.trim())] *)
Definition candidates (url : jsstring) : list jsstring :=
  map trim (split semicolon url).

Definition find_working_server (url : jsstring) : M jsstring :=
  let paths := candidates url in
  scan paths.

(** *** [getFormData] and [predict] *)

Definition invalid_input : jsstring := lit "Invalid input".

Definition getFormData (payload : ModelPayload) (config : JSValue) : M FormData :=
  let formData := append [] (lit "entries") (FormString (JSON_stringify config)) in
  match imagePath payload with
  | Some path =>
      bytes <- readFile path ;;
      ret (append formData (lit "image") (FormBlob [bytes]))
  | None =>
      match text payload with
      | Some t => ret (append formData (lit "text") (FormString t))
      | None => throw (Error invalid_input)
      end
  end.

Definition mkPOST (target : jsstring) (body : FormData) : Request :=
  {| req_url := target; req_method := POST; req_body := Some body |}.

Definition dispatch_failed (workingurl : jsstring) (error : exn) : jsstring :=
  errorPrefix ++ lit " to " ++ [dquote] ++ workingurl ++ [dquote]
  ++ lit " failed with " ++ cause_or_error error.

Definition prediction_rejected (config : JSValue) (res : Response) : jsstring :=
  errorPrefix ++ lit " '" ++ JSON_stringify config
  ++ lit "' failed with status " ++ Number_toString (status res)
  ++ lit ": " ++ statusText res.

Definition predicting_with (url : jsstring) : jsstring :=
  lit "Predicting with " ++ join [comma] (split semicolon url).

Definition predict (url : jsstring) (payload : ModelPayload) (config : JSValue)
  : M JSValue :=
  formData <- getFormData payload config ;;
  logger_debug (predicting_with url) ;;;
  workingurl <- find_working_server url ;;
  target <- new_URL (lit "/predict") workingurl ;;
  res <- catch (fetch (mkPOST target formData))
               (fun error => throw (Error (dispatch_failed workingurl error))) ;;
  if 400 <=? status res
  then throw (Error (prediction_rejected config res))
  else res_json res.

(** *** The public operations *)

Definition image_payload (path : jsstring) : ModelPayload :=
  {| imagePath := Some path; text := None |}.

Definition text_payload (t : jsstring) : ModelPayload :=
  {| imagePath := None; text := Some t |}.

Definition face_request (opts : FaceDetectionOptions) : JSValue :=
  let modelName := fd_modelName opts in
  let minScore := fd_minScore opts in
  object
    [(ModelTask_value FACIAL_RECOGNITION,
      object
        [(ModelType_value DETECTION,
          object [(lit "modelName", JString modelName);
                  (lit "options", object [(lit "minScore", JNumber minScore)])]);
         (ModelType_value RECOGNITION,
          object [(lit "modelName", JString modelName)])])].

Definition detectFaces (url imagePath : jsstring) (opts : FaceDetectionOptions)
  : M JSValue :=
  let request := face_request opts in
  response <- predict url (image_payload imagePath) request ;;
  imageHeight <- get response (lit "imageHeight") ;;
  imageWidth <- get response (lit "imageWidth") ;;
  faces <- get response (ModelTask_value FACIAL_RECOGNITION) ;;
  ret (object [(lit "imageHeight", imageHeight);
               (lit "imageWidth", imageWidth);
               (lit "faces", faces)]).

Definition visual_request (cfg : CLIPConfig) : JSValue :=
  let modelName := clip_modelName cfg in
  object
    [(ModelTask_value SEARCH,
      object [(ModelType_value VISUAL,
               object [(lit "modelName", JString modelName)])])].

Definition encodeImage (url imagePath : jsstring) (cfg : CLIPConfig) : M JSValue :=
  let request := visual_request cfg in
  response <- predict url (image_payload imagePath) request ;;
  get response (ModelTask_value SEARCH).

Definition textual_request (cfg : CLIPConfig) : JSValue :=
  let modelName := clip_modelName cfg in
  object
    [(ModelTask_value SEARCH,
      object [(ModelType_value TEXTUAL,
               object [(lit "modelName", JString modelName)])])].

Definition encodeText (url text : jsstring) (cfg : CLIPConfig) : M JSValue :=
  let request := textual_request cfg in
  response <- predict url (text_payload text) request ;;
  get response (ModelTask_value SEARCH).

(** *** Vocabulary of the properties *)

(** A liveness probe succeeds when the server answered with status exactly
    200. *)
Definition is_live (o : FetchResult) : bool :=
  match o with
  | Responded res => status res =? 200
  | Rejected _ => false
  end.

(** The world once the addresses [ps] were probed one after the other. *)
Fixpoint after_probes (ps : list jsstring) (w : World) : World :=
  match ps with
  | [] => w
  | p :: ps' => after_probes ps' (snd (net_fetch (mkGET p) w))
  end.

(** None of the addresses [ps], probed in this order from [w], is live. *)
Fixpoint all_dead (ps : list jsstring) (w : World) : bool :=
  match ps with
  | [] => true
  | p :: ps' =>
      negb (is_live (fst (net_fetch (mkGET p) w)))
      && all_dead ps' (snd (net_fetch (mkGET p) w))
  end.

End Repository.

Arguments State {rt}.
Arguments M {rt} A.

(** ** Concrete runtimes

    Small worlds to run the repository in: two hosts [http://a] and
    [http://b], one image file, and a network given as a table from requests
    to the way they settle. *)

Module Scenario.

(** Modelled from the spec: the string values of [ModelTask] and [ModelType],
    whose enum declarations are not part of the source file; the spec names the
    response branches [facial_recognition] and [search] and the model types
    [detection], [recognition], [visual] and [textual]. *)
Definition task_value (t : ModelTask) : jsstring :=
  match t with
  | FACIAL_RECOGNITION => lit "facial_recognition"
  | SEARCH => lit "search"
  end.

Definition type_value (t : ModelType) : jsstring :=
  match t with
  | DETECTION => lit "detection"
  | RECOGNITION => lit "recognition"
  | VISUAL => lit "visual"
  | TEXTUAL => lit "textual"
  end.

Lemma task_value_plain (t : ModelTask) : on_Object_prototype (task_value t) = false.
Proof. destruct t; reflexivity. Qed.

Definition lower_letter (c : N) : bool := (97 <=? c) && (c <=? 122).

(** The longest prefix of [s] made of characters satisfying [p], and the rest. *)
Fixpoint span (p : N -> bool) (s : jsstring) : jsstring * jsstring :=
  match s with
  | [] => ([], [])
  | c :: s' =>
      if p c then let (a, b) := span p s' in (c :: a, b) else ([], s)
  end.

(** The scheme and host of a base [scheme://host] that goes on with nothing
    or with a path, a query or a fragment. *)
Definition origin_of (scheme base : jsstring) : option jsstring :=
  if starts_with scheme base then
    let (host, rest) := span lower_letter (skipn (List.length scheme) base) in
    match host, rest with
    | [], _ => None
    | _ :: _, [] => Some (scheme ++ host)
    | _ :: _, c :: _ =>
        if (c =? 47) || (c =? 63) || (c =? 35) then Some (scheme ++ host)
        else None
    end
  else None.

(** An absolute path of one segment of lowercase letters, as [/predict]. *)
Definition plain_path (input : jsstring) : bool :=
  match input with
  | 47 :: c :: rest => forallb lower_letter (c :: rest)
  | _ => false
  end.

(** [new URL(input, base)] for the addresses of these worlds. Against a base
    [http://host] or [https://host] with a host of lowercase letters, an
    absolute path replaces whatever path, query and fragment the base has:
    the result is the scheme and host followed by the path. A base that is a
    [data:] URL has no hierarchy to resolve a path against and the
    constructor throws. Other inputs and bases do not occur in these worlds;
    they are given no URL here. *)
Definition origin_URL (input base : jsstring) : option jsstring :=
  if plain_path input then
    match origin_of (lit "http://") base, origin_of (lit "https://") base with
    | Some origin, _ => Some (origin ++ input)
    | None, Some origin => Some (origin ++ input)
    | None, None => None
    end
  else None.

(** Property reads on values that are not objects, for the four keys these
    worlds read, [imageHeight], [imageWidth], [facial_recognition] and
    [search]: of these only [search] names something, the [search] method of
    strings. *)
Definition primitive_property (v : JSValue) (k : jsstring) : JSValue :=
  match v with
  | JString _ =>
      if jsstring_eqb k (lit "search") then JBuiltin (lit "String.prototype.search")
      else JUndefined
  | _ => JUndefined
  end.

(** Rendering of the few numbers these worlds use. *)
Definition number_text (x : PrimFloat.float) : jsstring :=
  if PrimFloat.eqb x 100 then lit "100"
  else if PrimFloat.eqb x 200 then lit "200"
  else if PrimFloat.eqb x 0.5 then lit "0.5"
  else if PrimFloat.eqb x 0.25 then lit "0.25"
  else lit "0".

Definition quoted (s : jsstring) : jsstring := [dquote] ++ s ++ [dquote].

(** [JSON.stringify] on data whose strings need no escaping. *)
Fixpoint stringify (v : JSValue) : jsstring :=
  match v with
  | JUndefined | JNull | JBuiltin _ => lit "null"
  | JBool true => lit "true"
  | JBool false => lit "false"
  | JNumber x => number_text x
  | JString s => quoted s
  | JArray items => lit "[" ++ join [comma] (map stringify items) ++ lit "]"
  | JObject props =>
      lit "{"
      ++ join [comma]
           (map (fun kv => match kv with
                           | (k, v') => quoted k ++ lit ":" ++ stringify v'
                           end) props)
      ++ lit "}"
  end.

Definition timeout : Foreign :=
  {| foreign_string := lit "TypeError: fetch failed";
     foreign_cause := Some (lit "ConnectTimeoutError: Connect Timeout Error") |}.

Definition refused : Foreign :=
  {| foreign_string := lit "TypeError: fetch failed";
     foreign_cause := Some (lit "Error: connect ECONNREFUSED") |}.

Definition no_such_file : Foreign :=
  {| foreign_string := lit "Error: ENOENT: no such file or directory";
     foreign_cause := None |}.

Definition image_bytes : Buffer := [255; 216; 255; 224].

Definition files (path : jsstring) : Foreign + Buffer :=
  if jsstring_eqb path (lit "/img.jpg") then inr image_bytes else inl no_such_file.

(** A runtime whose network is the table [net]. *)
Definition runtime (net : Request -> FetchResult) : Runtime :=
  {| World := unit;
     net_fetch := fun r w => (net r, w);
     fs_readFile := fun path w => (files path, w);
     URL_new := origin_URL;
     JSON_stringify := stringify;
     ModelTask_value := task_value;
     ModelType_value := type_value;
     ModelTask_value_plain := task_value_plain;
     primitive_get := primitive_property |}.

Definition ok (body : JSValue) : FetchResult :=
  Responded {| status := 200; statusText := lit "OK"; json_body := inr body |}.

Definition faces_response : JSValue :=
  JObject [(lit "imageHeight", JNumber 100);
           (lit "imageWidth", JNumber 200);
           (lit "facial_recognition",
            JArray [JObject [(lit "score", JNumber 0.5)]])].

Definition search_response : JSValue :=
  JObject [(lit "search",
            JObject [(lit "embedding", JArray [JNumber 0.5; JNumber 0.25])])].

Definition is_get (r : Request) (u : string) : bool :=
  match req_method r with
  | GET => jsstring_eqb (req_url r) (lit u)
  | POST => false
  end.

Definition is_post_to (r : Request) (u : string) : bool :=
  match req_method r with
  | POST => jsstring_eqb (req_url r) (lit u)
  | GET => false
  end.

(** Host [a] times out; host [b] is up and answers [/predict] with [body]. *)
Definition net_b_up (body : JSValue) (r : Request) : FetchResult :=
  if is_get r "http://a" then Rejected timeout
  else if is_get r "http://b" then ok JNull
  else if is_post_to r "http://b/predict" then ok body
  else Rejected refused.


(** Host [b] answers the probe and rejects the prediction with status 500. *)
Definition net_b_rejects (r : Request) : FetchResult :=
  if is_get r "http://a" then Rejected timeout
  else if is_get r "http://b" then ok JNull
  else if is_post_to r "http://b/predict" then
    Responded {| status := 500;
                 statusText := lit "Internal Server Error";
                 json_body := inr JNull |}
  else Rejected refused.

(** Host [a] times out and host [b] answers 503: no server is live. *)
Definition net_down (r : Request) : FetchResult :=
  if is_get r "http://b" then
    Responded {| status := 503;
                 statusText := lit "Service Unavailable";
                 json_body := inr JNull |}
  else Rejected timeout.

(** The networks the properties are exercised on. *)
Definition up : Request -> FetchResult := net_b_up search_response.
Definition faces_up : Request -> FetchResult := net_b_up faces_response.

(** The request [encodeText] builds for the model [clip-base]. *)
Definition clip_request : JSValue :=
  textual_request (rt := runtime up) {| clip_modelName := lit "clip-base" |}.

(** The state of the runtime over [net] after the events [tr]. *)
Definition after (net : Request -> FetchResult) (tr : list Event)
  : State (rt := runtime net) :=
  {| world := (tt : World (Runtime := runtime net)); trace := tr |}.

Definition fresh (net : Request -> FetchResult) : State (rt := runtime net) :=
  after net [].

Definition host_a : jsstring := lit "http://a".
Definition host_b : jsstring := lit "http://b".
Definition host_c : jsstring := lit "http://c".

Definition two_hosts : jsstring := lit "http://a;http://b".
Definition three_hosts : jsstring := lit " http://a ; http://b;http://c".

Definition clip_base : CLIPConfig := {| clip_modelName := lit "clip-base" |}.

Definition face_options : FaceDetectionOptions :=
  {| fd_modelName := lit "m"; fd_minScore := 0.5 |}.

(** Host [b] is configured with the path [/ml]: the probe of [http://b/ml]
    is answered, and the prediction is served at [http://b/predict]. *)
Definition host_b_ml : jsstring := lit "http://b/ml".

Definition net_b_path (r : Request) : FetchResult :=
  if is_get r "http://b/ml" then ok JNull
  else if is_post_to r "http://b/predict" then ok search_response
  else Rejected refused.

(** A [data:] URL as the configured address. Fetching it needs no network:
    the runtime answers with status 200 and the URL's own content, which is
    not JSON. *)
Definition data_url : jsstring := lit "data:text/plain,x".

Definition not_json : Foreign :=
  {| foreign_string := lit "SyntaxError: Unexpected token";
     foreign_cause := None |}.

Definition net_data (r : Request) : FetchResult :=
  if is_get r "data:text/plain,x" then
    Responded {| status := 200; statusText := lit "OK";
                 json_body := inl not_json |}
  else Rejected refused.

(** Host [b] is up and answers [/predict] with the JSON text [null]. *)
Definition null_up : Request -> FetchResult := net_b_up JNull.

(** Host [b] answers its probe with 204. *)
Definition net_b_no_content (r : Request) : FetchResult :=
  if is_get r "http://b" then
    Responded {| status := 204; statusText := lit "No Content";
                 json_body := inl refused |}
  else Rejected timeout.

(** Host [b] is up and answers [/predict] with an empty object. *)
Definition empty_up : Request -> FetchResult := net_b_up (JObject []).

End Scenario.

(** ** Facts about [split], [join], [trim] and decimal rendering *)

Module JsStringFacts.

Lemma split_not_nil (sep : N) (s : jsstring) : split sep s <> [].
Proof.
  destruct s as [|c s]; simpl; [discriminate|].
  destruct (c =? sep); [discriminate|].
  destruct (split sep s); discriminate.
Qed.

Lemma split_length (sep : N) (s : jsstring) : (1 <= List.length (split sep s))%nat.
Proof.
  pose proof (split_not_nil sep s) as H.
  destruct (split sep s); [congruence | simpl; lia].
Qed.

Lemma join_cons (sep x : jsstring) (y : jsstring) (rest : list jsstring) :
  join sep (x :: y :: rest) = x ++ sep ++ join sep (y :: rest).
Proof. reflexivity. Qed.

Lemma join_split (sep : N) (s : jsstring) : join [sep] (split sep s) = s.
Proof.
  induction s as [|c s IH]; simpl; [reflexivity|].
  destruct (N.eqb_spec c sep) as [->|Hne].
  - pose proof (split_not_nil sep s) as Hnn.
    destruct (split sep s) as [|seg segs]; [congruence|].
    rewrite join_cons, IH. reflexivity.
  - pose proof (split_not_nil sep s) as Hnn.
    destruct (split sep s) as [|seg segs]; [congruence|].
    destruct segs as [|seg' segs].
    + simpl in *. now rewrite IH.
    + rewrite join_cons in *. rewrite <- IH. reflexivity.
Qed.

Lemma split_no_sep (sep : N) (s : jsstring) :
  Forall (fun seg => ~ In sep seg) (split sep s).
Proof.
  induction s as [|c s IH]; simpl.
  - constructor; [intros []|constructor].
  - destruct (N.eqb_spec c sep) as [->|Hne].
    + constructor; [intros []|exact IH].
    + destruct (split sep s) as [|seg segs].
      * constructor; [|constructor]. intros [H|[]]. congruence.
      * inversion IH as [|? ? Hseg Hsegs]; subst.
        constructor; [|exact Hsegs].
        intros [H|H]; [congruence|contradiction].
Qed.

Lemma split_app_sep (sep : N) (x rest : jsstring) :
  ~ In sep x -> split sep (x ++ sep :: rest) = x :: split sep rest.
Proof.
  induction x as [|c x IH]; simpl; intros Hx.
  - now rewrite N.eqb_refl.
  - destruct (N.eqb_spec c sep) as [->|Hne]; [tauto|].
    rewrite IH by tauto. reflexivity.
Qed.

Lemma split_no_occurrence (sep : N) (x : jsstring) :
  ~ In sep x -> split sep x = [x].
Proof.
  induction x as [|c x IH]; simpl; intros Hx; [reflexivity|].
  destruct (N.eqb_spec c sep) as [->|Hne]; [tauto|].
  rewrite IH by tauto. reflexivity.
Qed.

(** [split] is the only way to cut a string into separator-free segments. *)
Lemma split_join (sep : N) (l : list jsstring) :
  l <> [] -> Forall (fun seg => ~ In sep seg) l ->
  split sep (join [sep] l) = l.
Proof.
  induction l as [|x l IH]; intros Hnn Hall; [congruence|].
  inversion Hall as [|? ? Hx Hl]; subst.
  destruct l as [|y l].
  - simpl. now apply split_no_occurrence.
  - rewrite join_cons.
    change ([sep] ++ join [sep] (y :: l)) with (sep :: join [sep] (y :: l)).
    rewrite split_app_sep by assumption.
    rewrite IH; [reflexivity|discriminate|assumption].
Qed.

Lemma trimStart_spec (s : jsstring) :
  exists l, s = l ++ trimStart s
            /\ Forall (fun c => is_white_space c = true) l
            /\ (forall c t, trimStart s = c :: t -> is_white_space c = false).
Proof.
  induction s as [|c s (l & Hs & Hl & Hh)]; simpl.
  - exists []. repeat split; [constructor|discriminate].
  - destruct (is_white_space c) eqn:Hc.
    + exists (c :: l). repeat split.
      * simpl. now f_equal.
      * now constructor.
      * exact Hh.
    + exists []. repeat split; [constructor|].
      intros c' t Heq. now inversion Heq; subst.
Qed.

(** [trim] removes a run of white space at each end and nothing else: what
    remains neither starts nor ends with white space. *)
Lemma trim_spec (s : jsstring) :
  exists l r, s = l ++ trim s ++ r
              /\ Forall (fun c => is_white_space c = true) l
              /\ Forall (fun c => is_white_space c = true) r
              /\ (forall c t, trim s = c :: t -> is_white_space c = false)
              /\ (forall c t, trim s = t ++ [c] -> is_white_space c = false).
Proof.
  destruct (trimStart_spec s) as (l & Hs & Hl & Hhead).
  destruct (trimStart_spec (rev (trimStart s))) as (r' & Hr & Hr' & Hlast).
  exists l, (rev r'). unfold trim, trimEnd.
  assert (Hmid : trimStart s = rev (trimStart (rev (trimStart s))) ++ rev r').
  { rewrite <- rev_app_distr, <- Hr. now rewrite rev_involutive. }
  repeat split.
  - now rewrite <- Hmid.
  - exact Hl.
  - now apply Forall_rev.
  - intros c t Heq. rewrite Heq in Hmid.
    now apply (Hhead c (t ++ rev r')).
  - intros c t Heq.
    apply (Hlast c (rev t)).
    rewrite <- (rev_involutive (trimStart (rev (trimStart s)))), Heq.
    rewrite rev_app_distr. reflexivity.
Qed.

Lemma is_split_of_split (sep : N) (s : jsstring) : is_split_of (split sep s) sep s.
Proof.
  repeat split; [apply split_not_nil | apply join_split | apply split_no_sep].
Qed.

Lemma is_split_of_unique (segs : list jsstring) (sep : N) (s : jsstring) :
  is_split_of segs sep s -> segs = split sep s.
Proof.
  intros (Hnn & Hjoin & Hall). rewrite <- Hjoin. symmetry.
  now apply split_join.
Qed.

Lemma trimStart_white (l s : jsstring) :
  Forall (fun x => is_white_space x = true) l -> trimStart (l ++ s) = trimStart s.
Proof.
  induction 1 as [|x l Hx _ IH]; simpl; [reflexivity|]. now rewrite Hx.
Qed.

Lemma is_trim_of_trim (s : jsstring) : is_trim_of (trim s) s.
Proof. apply trim_spec. Qed.

Lemma is_trim_of_unique (c seg : jsstring) : is_trim_of c seg -> c = trim seg.
Proof.
  intros (l & r & Hseg & Hl & Hr & Hhead & Hlast). subst seg.
  unfold trim, trimEnd. rewrite trimStart_white by exact Hl.
  destruct c as [|x t].
  - simpl. rewrite <- (app_nil_r r), trimStart_white by exact Hr.
    reflexivity.
  - assert (Hs : trimStart ((x :: t) ++ r) = (x :: t) ++ r).
    { simpl. now rewrite (Hhead x t eq_refl). }
    rewrite Hs, rev_app_distr, trimStart_white by now apply Forall_rev.
    destruct (exists_last (l := x :: t)) as (t' & y & Hy); [discriminate|].
    rewrite Hy, rev_app_distr. simpl.
    rewrite (Hlast y t' Hy). simpl.
    now rewrite rev_involutive.
Qed.

Lemma fold_digits (d : Decimal.uint) (acc : N) :
  fold_left (fun a c => 10 * a + (c - 48)) (digits d) acc
  = DecimalPos.Unsigned.of_lu (Decimal.rev d)
    + acc * 10 ^ DecimalPos.Unsigned.usize d.
Proof.
  revert acc.
  induction d; intros acc; cbn [digits fold_left DecimalPos.Unsigned.usize];
    [ cbn; lia | .. ];
    rewrite IHd; unfold Decimal.rev; cbn [Decimal.revapp];
    rewrite (DecimalPos.Unsigned.of_lu_revapp d (_ Decimal.Nil));
    cbn [DecimalPos.Unsigned.of_lu]; rewrite N.pow_succ_r';
    fold (Decimal.rev d); lia.
Qed.

(** The decimal rendering of a status denotes that status. *)
Lemma Number_toString_exact (n : N) : read_digits (Number_toString n) = n.
Proof.
  unfold read_digits, Number_toString. rewrite fold_digits.
  rewrite <- DecimalPos.Unsigned.of_uint_alt, N.mul_0_l, N.add_0_r.
  apply DecimalN.Unsigned.of_to.
Qed.

End JsStringFacts.

Import JsStringFacts.

(** ** Properties of the endpoint resolver *)

Section ResolverProperties.

Context {rt : Runtime}.

Lemma fetches_app (a b : list Event) : fetches (a ++ b) = fetches a ++ fetches b.
Proof. unfold fetches. apply flat_map_app. Qed.

Lemma posts_app (a b : list Event) : posts (a ++ b) = posts a ++ posts b.
Proof. unfold posts. now rewrite fetches_app, filter_app. Qed.

Lemma candidates_split (url : jsstring) :
  exists segs, is_split_of segs semicolon url
               /\ Forall2 is_trim_of (candidates url) segs.
Proof.
  exists (split semicolon url). split; [apply is_split_of_split|].
  unfold candidates.
  induction (split semicolon url) as [|seg segs IH]; simpl; constructor;
    [apply is_trim_of_trim | exact IH].
Qed.

(** The two relations leave no choice: they describe [candidates] exactly. *)
Lemma candidates_unique (url : jsstring) (segs cs : list jsstring) :
  is_split_of segs semicolon url -> Forall2 is_trim_of cs segs ->
  cs = candidates url.
Proof.
  intros Hsplit Htrim. unfold candidates.
  rewrite <- (is_split_of_unique _ _ _ Hsplit). clear Hsplit.
  induction Htrim as [|c seg cs segs Hc _ IH]; simpl; [reflexivity|].
  f_equal; [now apply is_trim_of_unique | exact IH].
Qed.

Lemma candidates_not_nil (url : jsstring) : candidates url <> [].
Proof.
  unfold candidates. pose proof (split_not_nil semicolon url) as H.
  destruct (split semicolon url); [congruence | discriminate].
Qed.

(** A probe the server answers. *)
Lemma ping_responded (path : jsstring) (st : State) (res : Response) (w : World) :
  net_fetch (mkGET path) (world st) = (Responded res, w) ->
  ping path st
  = (Ok (FromServer res),
     {| world := w; trace := trace st ++ [EvFetch (mkGET path)] |}).
Proof.
  intros H. unfold ping, catch, bind, fetch, ret. now rewrite H.
Qed.

(** A probe that fails at the network level. *)
Lemma ping_rejected (path : jsstring) (st : State) (e : Foreign) (w : World) :
  net_fetch (mkGET path) (world st) = (Rejected e, w) ->
  ping path st
  = (Ok (Nop 0 (lit "nop")),
     {| world := w;
        trace := trace st ++ [EvFetch (mkGET path);
                              EvWarn (ping_failed path (Rejection e))] |}).
Proof.
  intros H. unfold ping, catch, bind, fetch, ret, logger_warn, emit.
  rewrite H. simpl. now rewrite <- app_assoc.
Qed.

(** A dead candidate costs one probe and leaves the scan to the rest. *)
Lemma scan_skip (path : jsstring) (rest : list jsstring) (st : State) :
  is_live (fst (net_fetch (mkGET path) (world st))) = false ->
  exists tr',
    scan (path :: rest) st
    = scan rest {| world := snd (net_fetch (mkGET path) (world st));
                   trace := trace st ++ tr' |}
    /\ fetches tr' = [mkGET path] /\ posts tr' = [].
Proof.
  intros Hdead.
  destruct (net_fetch (mkGET path) (world st)) as [[res|e] w] eqn:Hnet;
    simpl in Hdead |- *.
  - exists [EvFetch (mkGET path)]. repeat split.
    cbn [scan]. unfold bind at 1. rewrite (ping_responded _ _ _ _ Hnet).
    cbn [probe_status]. now rewrite Hdead.
  - exists [EvFetch (mkGET path); EvWarn (ping_failed path (Rejection e))].
    repeat split.
    cbn [scan]. unfold bind at 1. now rewrite (ping_rejected _ _ _ _ Hnet).
Qed.

Lemma scan_dead (pre rest : list jsstring) (st : State) :
  all_dead pre (world st) = true ->
  exists tr',
    scan (pre ++ rest) st
    = scan rest {| world := after_probes pre (world st);
                   trace := trace st ++ tr' |}
    /\ fetches tr' = map mkGET pre /\ posts tr' = [].
Proof.
  revert st. induction pre as [|p pre IH]; intros st Hdead.
  - exists []. rewrite app_nil_r. destruct st. now repeat split.
  - cbn [all_dead] in Hdead. apply andb_true_iff in Hdead as [Hp Hpre].
    apply negb_true_iff in Hp.
    destruct (scan_skip p (pre ++ rest) st Hp) as (tr1 & Hrun1 & Hf1 & Hp1).
    destruct (IH {| world := snd (net_fetch (mkGET p) (world st));
                    trace := trace st ++ tr1 |} Hpre)
      as (tr2 & Hrun2 & Hf2 & Hp2).
    exists (tr1 ++ tr2). simpl app. rewrite Hrun1, Hrun2. cbn [world trace after_probes].
    rewrite app_assoc, fetches_app, posts_app, Hf1, Hf2, Hp1, Hp2.
    now repeat split.
Qed.

Lemma scan_live (p : jsstring) (post : list jsstring) (st : State) :
  is_live (fst (net_fetch (mkGET p) (world st))) = true ->
  scan (p :: post) st
  = (Ok p,
     {| world := snd (net_fetch (mkGET p) (world st));
        trace := trace st ++ [EvFetch (mkGET p);
                              EvDebug (lit "Response from " ++ p)] |}).
Proof.
  intros Hlive.
  destruct (net_fetch (mkGET p) (world st)) as [[res|e] w] eqn:Hnet;
    simpl in Hlive |- *; [|discriminate].
  cbn [scan]. unfold bind at 1. rewrite (ping_responded _ _ _ _ Hnet).
  cbn [probe_status]. rewrite Hlive.
  unfold bind, logger_debug, ret, emit. simpl. now rewrite <- app_assoc.
Qed.

(** Whatever happens, a scan only adds events, and of the requests only GETs. *)
Lemma scan_trace (ps : list jsstring) (st : State) :
  exists tr', trace (snd (scan ps st)) = trace st ++ tr' /\ posts tr' = [].
Proof.
  revert st. induction ps as [|p ps IH]; intros st.
  - exists []. simpl. now rewrite app_nil_r.
  - destruct (is_live (fst (net_fetch (mkGET p) (world st)))) eqn:Hl.
    + rewrite (scan_live p ps st Hl). simpl. eexists. split; [reflexivity|].
      reflexivity.
    + destruct (scan_skip p ps st Hl) as (tr1 & Hrun & _ & Hp1).
      rewrite Hrun.
      destruct (IH {| world := snd (net_fetch (mkGET p) (world st));
                      trace := trace st ++ tr1 |}) as (tr2 & Htr & Hp2).
      exists (tr1 ++ tr2). rewrite Htr. simpl.
      rewrite posts_app, Hp1, Hp2, app_assoc. now split.
Qed.

(** C1: the candidate list is the configuration string split on [;] with
    each segment trimmed; the candidates are probed in list order, and when a
    candidate's probe is answered with status exactly 200 after every earlier
    candidate failed to, that candidate is returned and the probes issued are
    those of the earlier candidates and of it, none of the later ones,
    whatever their status would have been. *)
Theorem find_working_server_first_live
  (url : jsstring) (w : World) (tr : list Event)
  (pre : list jsstring) (p : jsstring) (post : list jsstring) :
  candidates url = pre ++ p :: post ->
  all_dead pre w = true ->
  is_live (fst (net_fetch (mkGET p) (after_probes pre w))) = true ->
  (exists segs, is_split_of segs semicolon url
                /\ Forall2 is_trim_of (candidates url) segs)
  /\ exists st',
      find_working_server url {| world := w; trace := tr |} = (Ok p, st')
      /\ fetches (trace st') = fetches tr ++ map mkGET (pre ++ [p])
      /\ world st' = snd (net_fetch (mkGET p) (after_probes pre w)).
Proof.
  intros Hcand Hdead Hlive. split; [apply candidates_split|].
  unfold find_working_server. rewrite Hcand.
  destruct (scan_dead pre (p :: post) {| world := w; trace := tr |} Hdead)
    as (tr1 & Hrun & Hf & _).
  rewrite Hrun, scan_live by exact Hlive.
  eexists. split; [reflexivity|]. cbn [world trace]. split; [|reflexivity].
  rewrite !fetches_app, Hf, map_app, <- app_assoc. reflexivity.
Qed.

(** C2, amended: when no candidate's probe is answered with status 200, the
    resolver throws an [Error] whose message is the fixed text
    "Machine learning request: no machine learning server found.", after
    probing every candidate once, in order; the message does not depend on the
    address string. *)
Theorem find_working_server_none_live
  (url : jsstring) (w : World) (tr : list Event) :
  all_dead (candidates url) w = true ->
  exists st',
    find_working_server url {| world := w; trace := tr |}
    = (Throw (Error (lit "Machine learning request: no machine learning server found.")),
       st')
    /\ fetches (trace st') = fetches tr ++ map mkGET (candidates url).
Proof.
  intros Hdead. unfold find_working_server.
  destruct (scan_dead (candidates url) [] {| world := w; trace := tr |} Hdead)
    as (tr1 & Hrun & Hf & _).
  rewrite app_nil_r in Hrun. rewrite Hrun. cbn [scan]. unfold throw.
  eexists. split; [reflexivity|]. cbn [trace].
  now rewrite fetches_app, Hf.
Qed.

(** C7: a probe that fails at the network level does not abort the scan: the
    rejection is caught, a warning is logged, the probe yields the object with
    status 0, which is no HTTP status and is not 200, and the scan goes on
    with the next candidate. *)
Theorem ping_failure_is_skipped
  (path : jsstring) (rest : list jsstring) (st : State) (e : Foreign) (w : World) :
  net_fetch (mkGET path) (world st) = (Rejected e, w) ->
  let st' := {| world := w;
                trace := trace st ++ [EvFetch (mkGET path);
                                      EvWarn (ping_failed path (Rejection e))] |} in
  ping path st = (Ok (Nop 0 (lit "nop")), st')
  /\ is_http_status (probe_status (Nop 0 (lit "nop"))) = false
  /\ (probe_status (Nop 0 (lit "nop")) =? 200) = false
  /\ scan (path :: rest) st = scan rest st'.
Proof.
  intros Hnet st'. repeat split.
  - now apply ping_rejected.
  - cbn [scan]. unfold bind at 1. now rewrite (ping_rejected _ _ _ _ Hnet).
Qed.

(** C10: splitting any string on [;], the empty one included, gives at least
    one segment, so the candidate list is never empty, and every run of the
    resolver starts by probing the first candidate: it cannot fail without
    having issued a probe. *)
Theorem find_working_server_probes_first (url : jsstring) (st : State) :
  (1 <= List.length (split semicolon url))%nat
  /\ candidates url <> []
  /\ exists p rest tr',
      candidates url = p :: rest
      /\ trace (snd (find_working_server url st))
         = trace st ++ EvFetch (mkGET p) :: tr'.
Proof.
  split; [apply split_length|]. split; [apply candidates_not_nil|].
  unfold find_working_server.
  pose proof (candidates_not_nil url) as Hnn.
  destruct (candidates url) as [|p rest]; [congruence|].
  exists p, rest.
  destruct (is_live (fst (net_fetch (mkGET p) (world st)))) eqn:Hl.
  - rewrite (scan_live p rest st Hl). simpl. eexists. split; reflexivity.
  - destruct (net_fetch (mkGET p) (world st)) as [[res|e] w] eqn:Hnet.
    + simpl in Hl. cbn [scan]. unfold bind at 1.
      rewrite (ping_responded _ _ _ _ Hnet). cbn [probe_status]. rewrite Hl.
      destruct (scan_trace rest {| world := w;
                                   trace := trace st ++ [EvFetch (mkGET p)] |})
        as (tr2 & Htr & _).
      rewrite Htr. cbn [trace]. rewrite <- app_assoc. eexists. split; reflexivity.
    + cbn [scan]. unfold bind at 1.
      rewrite (ping_rejected _ _ _ _ Hnet). cbn [probe_status].
      change (0 =? 200) with false. cbv iota.
      match goal with |- context [scan rest ?s] =>
        destruct (scan_trace rest s) as (tr2 & Htr & _) end.
      rewrite Htr. cbn [trace]. rewrite <- app_assoc. eexists. split; reflexivity.
Qed.

End ResolverProperties.

(** ** Properties of the prediction dispatcher *)

Section DispatcherProperties.

Context {rt : Runtime}.




(** Building the form touches the file system at most, never the network. *)
Lemma getFormData_trace (payload : ModelPayload) (config : JSValue) (st : State) :
  exists tr',
    trace (snd (getFormData payload config st)) = trace st ++ tr'
    /\ fetches tr' = [].
Proof.
  unfold getFormData.
  destruct (imagePath payload) as [path|].
  - unfold bind, readFile, ret.
    destruct (fs_readFile path (world st)) as [[e|bytes] w];
      exists [EvReadFile path]; now split.
  - destruct (text payload); exists []; simpl; now rewrite app_nil_r.
Qed.

(** The run of [predict] once the form is built, an address is resolved and
    [/predict] is resolved against it: one POST, whose settlement decides. *)
Lemma predict_resolved
  (url : jsstring) (payload : ModelPayload) (config : JSValue) (st : State)
  (formData : FormData) (st1 : State) (workingurl : jsstring) (st2 : State)
  (target : jsstring) :
  getFormData payload config st = (Ok formData, st1) ->
  find_working_server url (emit (EvDebug (predicting_with url)) st1)
  = (Ok workingurl, st2) ->
  URL_new (lit "/predict") workingurl = Some target ->
  predict url payload config st
  = (match fst (net_fetch (mkPOST target formData) (world st2)) with
     | Rejected e => Throw (Error (dispatch_failed workingurl (Rejection e)))
     | Responded res =>
         if 400 <=? status res
         then Throw (Error (prediction_rejected config res))
         else match json_body res with
              | inr v => Ok v
              | inl e => Throw (Rejection e)
              end
     end,
     {| world := snd (net_fetch (mkPOST target formData) (world st2));
        trace := trace st2 ++ [EvFetch (mkPOST target formData)] |}).
Proof.
  intros Hform Hfind Hurl.
  unfold predict. unfold bind at 1. rewrite Hform.
  unfold bind at 1. unfold logger_debug at 1.
  unfold bind at 1. rewrite Hfind.
  unfold bind at 1. unfold new_URL. rewrite Hurl. unfold ret at 1.
  unfold bind, catch, fetch, throw.
  destruct (net_fetch (mkPOST target formData) (world st2)) as [[res|e] w3].
  - cbn [fst snd]. destruct (400 <=? status res); [reflexivity|].
    unfold res_json. destruct (json_body res); reflexivity.
  - reflexivity.
Qed.

(** C3: a payload with neither an image reference nor a text string makes
    [predict] throw the [Error] "Invalid input" with the world and the trace
    untouched: no liveness probe and no prediction POST is issued. *)
Theorem predict_invalid_input
  (url : jsstring) (payload : ModelPayload) (config : JSValue) (st : State) :
  imagePath payload = None ->
  text payload = None ->
  predict url payload config st = (Throw (Error (lit "Invalid input")), st)
  /\ fetches (trace (snd (predict url payload config st))) = fetches (trace st).
Proof.
  intros Himg Htxt.
  assert (H : predict url payload config st
              = (Throw (Error (lit "Invalid input")), st)).
  { unfold predict, bind at 1. unfold getFormData. now rewrite Himg, Htxt. }
  now rewrite H.
Qed.


(** C5: when the prediction POST is answered, a status of 400 or more makes
    [predict] throw an [Error] whose message carries the serialized request
    configuration, the status in decimal and the status text; a status below
    400 makes it settle as [res.json()] does, the decoded data handed over
    untouched. *)
Theorem predict_response
  (url : jsstring) (payload : ModelPayload) (config : JSValue) (st : State)
  (formData : FormData) (st1 : State) (workingurl : jsstring) (st2 : State)
  (target : jsstring) (res : Response) (w3 : World) :
  getFormData payload config st = (Ok formData, st1) ->
  find_working_server url (emit (EvDebug (predicting_with url)) st1)
  = (Ok workingurl, st2) ->
  URL_new (lit "/predict") workingurl = Some target ->
  net_fetch (mkPOST target formData) (world st2) = (Responded res, w3) ->
  let st3 := {| world := w3;
                trace := trace st2 ++ [EvFetch (mkPOST target formData)] |} in
  let message :=
    lit "Machine learning request '" ++ JSON_stringify config
    ++ lit "' failed with status " ++ Number_toString (status res)
    ++ lit ": " ++ statusText res in
  (400 <= status res ->
   predict url payload config st = (Throw (Error message), st3))
  /\ (status res < 400 ->
      predict url payload config st
      = (match json_body res with
         | inr data => Ok data
         | inl e => Throw (Rejection e)
         end, st3))
  /\ read_digits (Number_toString (status res)) = status res.
Proof.
  intros Hform Hfind Hurl Hpost st3 message.
  pose proof (predict_resolved _ _ _ _ _ _ _ _ _ Hform Hfind Hurl) as Hrun.
  rewrite Hpost in Hrun. cbn [fst snd] in Hrun. repeat split.
  - intros Hge. rewrite Hrun.
    destruct (N.leb_spec 400 (status res)); [reflexivity|lia].
  - intros Hlt. rewrite Hrun.
    destruct (N.leb_spec 400 (status res)); [lia|reflexivity].
  - apply Number_toString_exact.
Qed.

(** C6: when an address was resolved, the call issues exactly one POST; its
    body is the multipart form and its target is [/predict] resolved against
    the resolved address; it is the last request of the call. *)
Theorem predict_posts_once
  (url : jsstring) (payload : ModelPayload) (config : JSValue) (st : State)
  (formData : FormData) (st1 : State) (workingurl : jsstring) (st2 : State)
  (target : jsstring) :
  getFormData payload config st = (Ok formData, st1) ->
  find_working_server url (emit (EvDebug (predicting_with url)) st1)
  = (Ok workingurl, st2) ->
  URL_new (lit "/predict") workingurl = Some target ->
  posts (trace (snd (predict url payload config st)))
  = posts (trace st)
    ++ [{| req_url := target; req_method := POST; req_body := Some formData |}]
  /\ fetches (trace (snd (predict url payload config st)))
     = fetches (trace st2)
       ++ [{| req_url := target; req_method := POST; req_body := Some formData |}].
Proof.
  intros Hform Hfind Hurl.
  rewrite (predict_resolved _ _ _ _ _ _ _ _ _ Hform Hfind Hurl). cbn [snd trace].
  split; [|now rewrite fetches_app].
  rewrite posts_app. f_equal.
  destruct (getFormData_trace payload config st) as (tr1 & Htr1 & Hf1).
  rewrite Hform in Htr1. cbn [snd] in Htr1.
  destruct (scan_trace (candidates url) (emit (EvDebug (predicting_with url)) st1))
    as (tr2 & Htr2 & Hp2).
  unfold find_working_server in Hfind. rewrite Hfind in Htr2. cbn [snd] in Htr2.
  rewrite Htr2. unfold emit. cbn [trace]. rewrite Htr1.
  rewrite !posts_app, Hp2. unfold posts at 2 3. rewrite Hf1. simpl.
  now rewrite !app_nil_r.
Qed.

(** C8, amended: on a successful dispatch each operation reads the decoded
    response. When it is [null] the first property read throws a
    [TypeError]. Otherwise [detectFaces] returns the object with
    [imageHeight] and [imageWidth] read from the response and [faces] bound
    to its facial-recognition property, and [encodeImage] and [encodeText]
    return its search property unchanged. *)
Theorem projections
  (url : jsstring) (st st' : State) (response : JSValue) :
  (forall imagePath opts,
      predict url (image_payload imagePath) (face_request opts) st
      = (Ok response, st') ->
      detectFaces url imagePath opts st
      = (if nullish response
         then Throw (TypeError (cannot_read response (lit "imageHeight")))
         else Ok (JObject
                    [(lit "imageHeight", prop response (lit "imageHeight"));
                     (lit "imageWidth", prop response (lit "imageWidth"));
                     (lit "faces",
                      prop response (ModelTask_value FACIAL_RECOGNITION))]),
         st'))
  /\ (forall imagePath cfg,
         predict url (image_payload imagePath) (visual_request cfg) st
         = (Ok response, st') ->
         encodeImage url imagePath cfg st
         = (if nullish response
            then Throw (TypeError (cannot_read response (ModelTask_value SEARCH)))
            else Ok (prop response (ModelTask_value SEARCH)),
            st'))
  /\ (forall text cfg,
         predict url (text_payload text) (textual_request cfg) st
         = (Ok response, st') ->
         encodeText url text cfg st
         = (if nullish response
            then Throw (TypeError (cannot_read response (ModelTask_value SEARCH)))
            else Ok (prop response (ModelTask_value SEARCH)),
            st')).
Proof.
  repeat split.
  - intros imagePath opts Hrun.
    unfold detectFaces, bind, get, ret, throw. rewrite Hrun.
    now destruct (nullish response).
  - intros imagePath cfg Hrun.
    unfold encodeImage, bind, get, ret, throw. rewrite Hrun.
    now destruct (nullish response).
  - intros text cfg Hrun.
    unfold encodeText, bind, get, ret, throw. rewrite Hrun.
    now destruct (nullish response).
Qed.

(** C9, amended: the payload is examined for an image reference first and for
    a text string second. With neither, the request is rejected with
    "Invalid input" before anything is built or sent. With an image
    reference, whether or not a text string comes with it, the form is built
    as for the image alone (entries and image fields, the text left out).
    With a text string only, the form has the entries and text fields. *)
Theorem getFormData_variants (config : JSValue) (st : State) :
  getFormData {| imagePath := None; text := None |} config st
  = (Throw (Error (lit "Invalid input")), st)
  /\ (forall path t,
         getFormData {| imagePath := Some path; text := Some t |} config st
         = getFormData {| imagePath := Some path; text := None |} config st)
  /\ (forall path o formData st',
         getFormData {| imagePath := Some path; text := o |} config st
         = (Ok formData, st') ->
         exists bytes,
           fs_readFile path (world st) = (inr bytes, world st')
           /\ formData = [(lit "entries", FormString (JSON_stringify config));
                          (lit "image", FormBlob [bytes])])
  /\ (forall t,
         getFormData {| imagePath := None; text := Some t |} config st
         = (Ok [(lit "entries", FormString (JSON_stringify config));
                (lit "text", FormString t)], st)).
Proof.
  repeat split.
  intros path o formData st' Hrun.
  unfold getFormData in Hrun. cbn [imagePath] in Hrun.
  unfold bind, readFile, ret in Hrun.
  destruct (fs_readFile path (world st)) as [[e|bytes] w]; [discriminate|].
  inversion Hrun; subst. exists bytes. now split.
Qed.

End DispatcherProperties.

(** ** The properties at work in the concrete runtimes *)

Import Scenario.

(** In [" http://a ; http://b;http://c"], [a] times out and [b] answers 200:
    [b] is returned and [c] is never probed. *)
Lemma find_working_server_first_live_witness :
  exists st',
    find_working_server (rt := runtime up) three_hosts (fresh up) = (Ok host_b, st')
    /\ fetches (trace st') = [mkGET host_a; mkGET host_b].
Proof.
  destruct (find_working_server_first_live (rt := runtime up)
              three_hosts tt [] [host_a] host_b [host_c])
    as [_ (st' & Hrun & Hfetches & _)]; [reflexivity ..|].
  exists st'. split; [exact Hrun | exact Hfetches].
Defined.

(** With [a] timing out and [b] answering 503 the resolver gives up after
    probing both. *)
Lemma find_working_server_none_live_witness :
  exists st',
    find_working_server (rt := runtime net_down) two_hosts (fresh net_down)
    = (Throw (Error (lit "Machine learning request: no machine learning server found.")),
       st')
    /\ fetches (trace st') = [mkGET host_a; mkGET host_b].
Proof.
  destruct (find_working_server_none_live (rt := runtime net_down)
              two_hosts tt [])
    as (st' & Hrun & Hfetches); [reflexivity|].
  exists st'. split; [exact Hrun | exact Hfetches].
Defined.

(** C2 as stated fails: with no live server among ["http://a;http://b"] the
    error thrown does not carry that address string. *)
Lemma find_working_server_error_omits_addresses :
  all_dead (rt := runtime net_down) (candidates two_hosts) tt = true
  /\ exists message st',
      find_working_server (rt := runtime net_down) two_hosts (fresh net_down)
      = (Throw (Error message), st')
      /\ includes message two_hosts = false.
Proof.
  split; [reflexivity|]. eexists. eexists. split; reflexivity.
Qed.

(** The probe of [a] times out; the scan logs it and moves on to [b]. *)
Lemma ping_failure_is_skipped_witness :
  ping (rt := runtime up) host_a (fresh up)
  = (Ok (Nop 0 (lit "nop")),
     after up [EvFetch (mkGET host_a);
               EvWarn (ping_failed host_a (Rejection timeout))])
  /\ scan (rt := runtime up) [host_a; host_b] (fresh up)
     = (Ok host_b,
        after up [EvFetch (mkGET host_a);
                  EvWarn (ping_failed host_a (Rejection timeout));
                  EvFetch (mkGET host_b);
                  EvDebug (lit "Response from http://b")]).
Proof.
  destruct (ping_failure_is_skipped (rt := runtime up)
              host_a [host_b] (fresh up) timeout tt eq_refl)
    as (Hping & _ & _ & Hscan).
  split; [exact Hping|]. rewrite Hscan. reflexivity.
Defined.

(** An empty payload is refused before anything is sent. *)
Lemma predict_invalid_input_witness :
  predict (rt := runtime up) two_hosts {| imagePath := None; text := None |}
    clip_request (fresh up)
  = (Throw (Error (lit "Invalid input")), fresh up).
Proof.
  exact (proj1 (predict_invalid_input (rt := runtime up) two_hosts
                  {| imagePath := None; text := None |}
                  clip_request (fresh up) eq_refl eq_refl)).
Defined.


(** A 500 answer is reported with the request, the status and its text; a 200
    answer hands the decoded body over. *)
Lemma predict_response_witness :
  (exists st3,
      predict (rt := runtime net_b_rejects) two_hosts (text_payload (lit "hello world"))
        clip_request (fresh net_b_rejects)
      = (Throw (Error (lit "Machine learning request '"
                       ++ stringify clip_request
                       ++ lit "' failed with status 500: Internal Server Error")),
         st3))
  /\ (exists st3,
         predict (rt := runtime up) two_hosts (text_payload (lit "hello world"))
           clip_request (fresh up)
         = (Ok search_response, st3)).
Proof.
  split; eexists.
  - refine (proj1 (predict_response (rt := runtime net_b_rejects) two_hosts
                     (text_payload (lit "hello world")) clip_request
                     (fresh net_b_rejects) _ _ host_b _ (lit "http://b/predict")
                     {| status := 500;
                        statusText := lit "Internal Server Error";
                        json_body := inr JNull |} tt
                     _ _ _ _) _); [reflexivity .. | vm_compute; discriminate].
  - refine (proj1 (proj2
             (predict_response (rt := runtime up) two_hosts
                (text_payload (lit "hello world")) clip_request
                (fresh up) _ _ host_b _ (lit "http://b/predict")
                {| status := 200; statusText := lit "OK";
                   json_body := inr search_response |} tt
                _ _ _ _)) _); reflexivity.
Defined.

(** Candidates ["http://a;http://b"], [a] times out, [b] answers 200: the one
    POST of the call goes to [http://b/predict] with the form as body. *)
Lemma predict_posts_once_witness :
  posts (trace (snd (predict (rt := runtime up) two_hosts (text_payload (lit "hello world"))
                       clip_request (fresh up))))
  = [{| req_url := lit "http://b/predict";
        req_method := POST;
        req_body :=
          Some [(lit "entries",
                 FormString (stringify
                               clip_request));
                (lit "text", FormString (lit "hello world"))] |}].
Proof.
  refine (proj1 (predict_posts_once (rt := runtime up) two_hosts (text_payload (lit "hello world"))
                   clip_request (fresh up)
                   _ _ host_b _ (lit "http://b/predict") _ _ _)); reflexivity.
Defined.

(** [detectFaces] on a server answering
    [{imageHeight: 100, imageWidth: 200, facial_recognition: [...]}] returns
    [{imageHeight: 100, imageWidth: 200, faces: [...]}]; [encodeText] on a
    server answering [{search: {embedding: [...]}}] returns
    [{embedding: [...]}]. *)
Lemma projections_witness :
  (exists st',
      detectFaces (rt := runtime faces_up) two_hosts (lit "/img.jpg")
        face_options (fresh faces_up)
      = (Ok (JObject
               [(lit "imageHeight", JNumber 100);
                (lit "imageWidth", JNumber 200);
                (lit "faces", JArray [JObject [(lit "score", JNumber 0.5)]])]),
         st'))
  /\ (exists st',
         encodeText (rt := runtime up) two_hosts (lit "hello world")
           clip_base (fresh up)
         = (Ok (JObject [(lit "embedding", JArray [JNumber 0.5; JNumber 0.25])]),
            st')).
Proof.
  split; eexists.
  - refine (proj1 (projections (rt := runtime faces_up) two_hosts
                     (fresh faces_up) _ faces_response)
              (lit "/img.jpg") face_options _).
    reflexivity.
  - refine (proj2 (proj2 (projections (rt := runtime up) two_hosts
                            (fresh up) _ search_response))
              (lit "hello world") clip_base _).
    reflexivity.
Defined.

(** C8 as stated fails: a server answering the prediction with status 200
    and the body [null] makes for a successful dispatch, on which
    [detectFaces] and [encodeText] throw instead of returning a projection. *)
Lemma null_response_throws :
  (exists st',
      predict (rt := runtime null_up) two_hosts (image_payload (lit "/img.jpg"))
        (face_request (rt := runtime null_up) face_options) (fresh null_up)
      = (Ok JNull, st')
      /\ detectFaces (rt := runtime null_up) two_hosts (lit "/img.jpg")
           face_options (fresh null_up)
         = (Throw (TypeError
                     (lit "Cannot read properties of null (reading 'imageHeight')")),
            st'))
  /\ (exists st',
         predict (rt := runtime null_up) two_hosts (text_payload (lit "hello world"))
           clip_request (fresh null_up)
         = (Ok JNull, st')
         /\ encodeText (rt := runtime null_up) two_hosts (lit "hello world")
              clip_base (fresh null_up)
            = (Throw (TypeError
                        (lit "Cannot read properties of null (reading 'search')")),
               st')).
Proof. split; eexists; split; reflexivity. Qed.

(** C6 as stated fails: the address [data:text/plain,x] answers its probe
    with status 200, so resolution succeeds; the URL constructor refuses it
    as a base, and the call ends without any POST. *)
Lemma resolved_without_post :
  (exists st2,
      find_working_server (rt := runtime net_data) data_url
        (emit (EvDebug (predicting_with data_url)) (fresh net_data))
      = (Ok data_url, st2))
  /\ fst (predict (rt := runtime net_data) data_url
            (text_payload (lit "hello world")) clip_request (fresh net_data))
     = Throw (TypeError (lit "Invalid URL"))
  /\ posts (trace (snd (predict (rt := runtime net_data) data_url
                          (text_payload (lit "hello world")) clip_request
                          (fresh net_data))))
     = [].
Proof. split; [eexists; reflexivity | split; reflexivity]. Qed.

(** C9 as stated fails: a payload carrying both an image reference and a text
    string is not rejected; the form is built from the image and the text is
    dropped. *)
Lemma getFormData_accepts_both :
  getFormData (rt := runtime up)
    {| imagePath := Some (lit "/img.jpg"); text := Some (lit "hello world") |}
    clip_request (fresh up)
  = (Ok [(lit "entries", FormString (stringify clip_request));
         (lit "image", FormBlob [image_bytes])],
     after up [EvReadFile (lit "/img.jpg")]).
Proof. reflexivity. Qed.

(** ** Further behaviour of the endpoint resolver *)

Section ResolverBehaviour.

Context {rt : Runtime}.

Lemma reads_app (a b : list Event) : reads (a ++ b) = reads a ++ reads b.
Proof. unfold reads. apply flat_map_app. Qed.

(** A probe settles to a value whatever the network does. *)
Lemma ping_returns (path : jsstring) (st : State) :
  exists r st1, ping path st = (Ok r, st1).
Proof.
  destruct (net_fetch (mkGET path) (world st)) as [[res|e] w] eqn:Hnet.
  - rewrite (ping_responded _ _ _ _ Hnet). eauto.
  - rewrite (ping_rejected _ _ _ _ Hnet). eauto.
Qed.

(** The two ways a scan ends, with the probes that led there. *)
Lemma scan_cases (ps : list jsstring) (st : State) :
  (exists pre p post tr',
      ps = pre ++ p :: post
      /\ all_dead pre (world st) = true
      /\ is_live (fst (net_fetch (mkGET p) (after_probes pre (world st)))) = true
      /\ scan ps st
         = (Ok p,
            {| world := snd (net_fetch (mkGET p) (after_probes pre (world st)));
               trace := trace st ++ tr' |})
      /\ fetches tr' = map mkGET (pre ++ [p]))
  \/ (exists tr',
         all_dead ps (world st) = true
         /\ scan ps st
            = (Throw (Error no_server_found),
               {| world := after_probes ps (world st); trace := trace st ++ tr' |})
         /\ fetches tr' = map mkGET ps).
Proof.
  revert st. induction ps as [|p ps IH]; intros st.
  - right. exists []. cbn. rewrite app_nil_r. destruct st. now repeat split.
  - destruct (is_live (fst (net_fetch (mkGET p) (world st)))) eqn:Hl.
    + left. exists [], p, ps. eexists. cbn [app all_dead after_probes].
      rewrite (scan_live p ps st Hl).
      split; [reflexivity|]. split; [reflexivity|]. split; [exact Hl|].
      split; reflexivity.
    + destruct (scan_skip p ps st Hl) as (tr1 & Hrun & Hf1 & _).
      destruct (IH {| world := snd (net_fetch (mkGET p) (world st));
                      trace := trace st ++ tr1 |})
        as [(pre & q & post & tr2 & Hps & Hdead & Hlive & Hscan & Hf2)
           |(tr2 & Hdead & Hscan & Hf2)]; cbn [world trace] in *.
      * left. exists (p :: pre), q, post, (tr1 ++ tr2).
        cbn [app all_dead after_probes]. rewrite Hl, Hdead, Hrun, Hscan.
        rewrite app_assoc, fetches_app, Hf1, Hf2, Hps.
        now repeat split.
      * right. exists (tr1 ++ tr2).
        cbn [all_dead after_probes]. rewrite Hl, Hdead, Hrun, Hscan.
        rewrite app_assoc, fetches_app, Hf1, Hf2.
        now repeat split.
Qed.

(** Candidates after a successful one are never looked at. *)
Lemma scan_app_ok (l1 l2 : list jsstring) (st st' : State) (p : jsstring) :
  scan l1 st = (Ok p, st') -> scan (l1 ++ l2) st = (Ok p, st').
Proof.
  revert st. induction l1 as [|q l1 IH]; intros st; [discriminate|].
  cbn [app scan]. unfold bind at 1 3.
  destruct (ping_returns q st) as (r & st1 & ->).
  destruct (probe_status r =? 200); [trivial|apply IH].
Qed.

(** A scan that gives up hands the world over to whatever list follows. *)
Lemma scan_app_throw (l1 l2 : list jsstring) (st st' : State) (e : exn) :
  scan l1 st = (Throw e, st') -> scan (l1 ++ l2) st = scan l2 st'.
Proof.
  revert st. induction l1 as [|q l1 IH]; intros st.
  - cbn. intros H. now inversion H.
  - cbn [app scan]. unfold bind at 1 3.
    destruct (ping_returns q st) as (r & st1 & ->).
    destruct (probe_status r =? 200); [|apply IH].
    unfold bind, logger_debug, ret. discriminate.
Qed.

Lemma split_app (sep : N) (a b : jsstring) :
  split sep (a ++ sep :: b) = split sep a ++ split sep b.
Proof.
  induction a as [|c a IH]; cbn [app split].
  - now rewrite N.eqb_refl.
  - destruct (c =? sep); rewrite IH; [reflexivity|].
    pose proof (split_not_nil sep a) as Hnn.
    destruct (split sep a); [congruence|reflexivity].
Qed.

Lemma In_app_middle (x : N) (l c r : jsstring) :
  ~ In x (l ++ c ++ r) -> ~ In x c.
Proof. intros H Hc. apply H. apply in_or_app. right. apply in_or_app. now left. Qed.

(** Only a rejected probe is logged; the scan adds no file read. *)
Lemma scan_reads (ps : list jsstring) (st : State) :
  exists tr', trace (snd (scan ps st)) = trace st ++ tr' /\ reads tr' = [].
Proof.
  revert st. induction ps as [|p ps IH]; intros st.
  - exists []. simpl. now rewrite app_nil_r.
  - cbn [scan]. unfold bind at 1.
    destruct (net_fetch (mkGET p) (world st)) as [[res|e] w] eqn:Hnet.
    + rewrite (ping_responded _ _ _ _ Hnet). cbn [probe_status].
      destruct (status res =? 200).
      * unfold bind, logger_debug, ret, emit. cbn. rewrite <- app_assoc.
        eexists. split; reflexivity.
      * match goal with |- context [scan ps ?s] =>
          destruct (IH s) as (tr2 & Htr & Hr) end.
        rewrite Htr. cbn [trace]. rewrite <- app_assoc.
        eexists. split; [reflexivity|]. exact Hr.
    + rewrite (ping_rejected _ _ _ _ Hnet). cbn [probe_status].
      change (0 =? 200) with false. cbv iota.
      match goal with |- context [scan ps ?s] =>
        destruct (IH s) as (tr2 & Htr & Hr) end.
      rewrite Htr. cbn [trace]. rewrite <- app_assoc.
      eexists. split; [reflexivity|]. exact Hr.
Qed.

Lemma resolver_ends (url : jsstring) (st : State) :
  (exists p st',
      find_working_server url st = (Ok p, st') /\ In p (candidates url))
  \/ (exists st', find_working_server url st = (Throw (Error no_server_found), st')).
Proof.
  unfold find_working_server.
  destruct (scan_cases (candidates url) st)
    as [(pre & p & post & tr' & Hps & _ & _ & Hscan & _)|(tr' & _ & Hscan & _)].
  - left. eexists. eexists. split; [exact Hscan|].
    rewrite Hps. apply in_or_app. right. now left.
  - right. eexists. exact Hscan.
Qed.

(** X1: the resolver ends in one of two ways only: it returns one of the
    candidates, or it throws the [Error] "no machine learning server found";
    a failing probe never surfaces as an error of its own. *)
Theorem find_working_server_outcomes (url : jsstring) (st : State) :
  (exists p st',
      find_working_server url st = (Ok p, st') /\ In p (candidates url))
  \/ (exists st',
         find_working_server url st
         = (Throw (Error (lit "Machine learning request: no machine learning server found.")),
            st')).
Proof. exact (resolver_ends url st). Qed.

(** X2: an address the resolver returns is a trimmed segment: it holds no
    [;], neither starts nor ends with white space, and trimming it again
    changes nothing. *)
Theorem resolved_address_is_clean
  (url : jsstring) (st st' : State) (p : jsstring) :
  find_working_server url st = (Ok p, st') ->
  ~ In semicolon p
  /\ (forall x t, p = x :: t -> is_white_space x = false)
  /\ (forall x t, p = t ++ [x] -> is_white_space x = false)
  /\ trim p = p.
Proof.
  intros Hrun.
  assert (Hin : In p (candidates url)).
  { destruct (resolver_ends url st) as [(q & st1 & Hq & Hin)|(st1 & Hq)];
      rewrite Hrun in Hq; [now inversion Hq; subst | discriminate]. }
  unfold candidates in Hin. apply in_map_iff in Hin as (seg & <- & Hseg).
  pose proof (split_no_sep semicolon url) as Hall.
  rewrite Forall_forall in Hall. specialize (Hall seg Hseg).
  destruct (trim_spec seg) as (l & r & Heq & Hl & Hr & Hhead & Hlast).
  split; [|split; [exact Hhead|split; [exact Hlast|]]].
  - rewrite Heq in Hall. now apply In_app_middle in Hall.
  - symmetry. apply is_trim_of_unique. exists [], [].
    rewrite app_nil_r. now repeat split.
Qed.

(** X3: when the resolver returns an address, that address was probed and
    answered with status 200, every candidate before it was probed and was
    not, and no other request was made. *)
Theorem find_working_server_success_sound
  (url : jsstring) (st st' : State) (p : jsstring) :
  find_working_server url st = (Ok p, st') ->
  exists pre post,
    candidates url = pre ++ p :: post
    /\ all_dead pre (world st) = true
    /\ is_live (fst (net_fetch (mkGET p) (after_probes pre (world st)))) = true
    /\ fetches (trace st') = fetches (trace st) ++ map mkGET (pre ++ [p]).
Proof.
  unfold find_working_server. intros Hrun.
  destruct (scan_cases (candidates url) st)
    as [(pre & q & post & tr' & Hps & Hdead & Hlive & Hscan & Hf)
       |(tr' & _ & Hscan & _)];
    rewrite Hrun in Hscan; [|discriminate].
  inversion Hscan; subst q st'. exists pre, post. cbn [trace].
  rewrite fetches_app, Hf. now repeat split.
Qed.

(** X4: the resolver fails only with the "no machine learning server found"
    error, and only after every candidate was probed, in order, without one
    answering 200. *)
Theorem find_working_server_failure_sound
  (url : jsstring) (st st' : State) (e : exn) :
  find_working_server url st = (Throw e, st') ->
  e = Error (lit "Machine learning request: no machine learning server found.")
  /\ all_dead (candidates url) (world st) = true
  /\ fetches (trace st') = fetches (trace st) ++ map mkGET (candidates url).
Proof.
  unfold find_working_server. intros Hrun.
  destruct (scan_cases (candidates url) st)
    as [(pre & q & post & tr' & _ & _ & _ & Hscan & _)
       |(tr' & Hdead & Hscan & Hf)];
    rewrite Hrun in Hscan; [discriminate|].
  inversion Hscan; subst e st'. cbn [trace].
  rewrite fetches_app, Hf. now repeat split.
Qed.

(** X5: in every run the requests of the resolver are bare GETs of the first
    [k] candidates, in order, for some [k] between 1 and the number of
    candidates; it never sends a POST. *)
Theorem find_working_server_probes_prefix (url : jsstring) (st : State) :
  exists k,
    (1 <= k <= List.length (candidates url))%nat
    /\ fetches (trace (snd (find_working_server url st)))
       = fetches (trace st) ++ map mkGET (firstn k (candidates url))
    /\ posts (trace (snd (find_working_server url st))) = posts (trace st).
Proof.
  unfold find_working_server.
  assert (Hposts : posts (trace (snd (scan (candidates url) st)))
                   = posts (trace st)).
  { destruct (scan_trace (candidates url) st) as (tr & -> & Hp).
    now rewrite posts_app, Hp, app_nil_r. }
  pose proof (candidates_not_nil url) as Hnn.
  destruct (scan_cases (candidates url) st)
    as [(pre & p & post & tr' & Hps & _ & _ & Hscan & Hf)
       |(tr' & _ & Hscan & Hf)].
  - exists (S (List.length pre)). split; [|split; [|exact Hposts]].
    + rewrite Hps, length_app. simpl. lia.
    + rewrite Hscan, Hps. cbn [snd trace]. rewrite fetches_app, Hf.
      replace (S (List.length pre)) with (List.length pre + 1)%nat by lia.
      rewrite firstn_app_2. reflexivity.
  - exists (List.length (candidates url)). split; [|split; [|exact Hposts]].
    + destruct (candidates url); [congruence|simpl; lia].
    + rewrite Hscan. cbn [snd trace]. now rewrite fetches_app, Hf, firstn_all.
Qed.

(** X6: joining two address strings with [;] concatenates their candidate
    lists, so the addresses of the first keep priority over the second's. *)
Theorem candidates_app (a b : jsstring) :
  candidates (a ++ semicolon :: b) = candidates a ++ candidates b.
Proof.
  unfold candidates. now rewrite split_app, map_app.
Qed.

(** X7: appending further addresses to a list the resolver succeeds on
    changes neither the address returned nor anything it did. *)
Theorem find_working_server_prefix_wins
  (a b : jsstring) (st st' : State) (p : jsstring) :
  find_working_server a st = (Ok p, st') ->
  find_working_server (a ++ semicolon :: b) st = (Ok p, st').
Proof.
  unfold find_working_server, candidates. rewrite split_app, map_app.
  apply scan_app_ok.
Qed.

(** X8: when the resolver fails on a list, it resolves that list followed by
    further addresses as it resolves the further addresses alone, from the
    state the failed pass left. *)
Theorem find_working_server_falls_back
  (a b : jsstring) (st st' : State) (e : exn) :
  find_working_server a st = (Throw e, st') ->
  find_working_server (a ++ semicolon :: b) st = find_working_server b st'.
Proof.
  unfold find_working_server, candidates. rewrite split_app, map_app.
  apply scan_app_throw.
Qed.

(** X9: a candidate whose probe is answered with a status other than 200 is
    passed over without any log line: the request is the only event, and the
    scan goes on with the next candidate. *)
Theorem non_200_probe_is_skipped_silently
  (path : jsstring) (rest : list jsstring) (st : State)
  (res : Response) (w : World) :
  net_fetch (mkGET path) (world st) = (Responded res, w) ->
  status res <> 200 ->
  scan (path :: rest) st
  = scan rest {| world := w; trace := trace st ++ [EvFetch (mkGET path)] |}.
Proof.
  intros Hnet Hstatus. cbn [scan]. unfold bind at 1.
  rewrite (ping_responded _ _ _ _ Hnet). cbn [probe_status].
  now destruct (N.eqb_spec (status res) 200).
Qed.

(** X10: an address string without [;] and without white space at its ends
    is its own single candidate, and the resolver issues exactly one request,
    a GET of that very string. *)
Theorem single_address_is_probed_once (url : jsstring) (st : State) :
  ~ In semicolon url ->
  trim url = url ->
  candidates url = [url]
  /\ fetches (trace (snd (find_working_server url st)))
     = fetches (trace st) ++ [mkGET url].
Proof.
  intros Hsep Htrim.
  assert (Hc : candidates url = [url]).
  { unfold candidates. rewrite split_no_occurrence by exact Hsep.
    simpl. now rewrite Htrim. }
  split; [exact Hc|]. unfold find_working_server. rewrite Hc.
  destruct (scan_cases [url] st)
    as [(pre & p & post & tr' & Hps & _ & _ & Hscan & Hf)
       |(tr' & _ & Hscan & Hf)];
    rewrite Hscan; cbn [snd trace]; rewrite fetches_app, Hf; [|reflexivity].
  destruct pre as [|x pre]; inversion Hps; subst; [reflexivity|].
  destruct pre; discriminate.
Qed.

(** X11: the list the "Predicting with" debug line shows is the address
    string with every [;] replaced by a comma, white space untouched. *)
Theorem predicting_with_replaces_semicolons (url : jsstring) :
  predicting_with url
  = lit "Predicting with "
    ++ map (fun c => if c =? semicolon then comma else c) url.
Proof.
  unfold predicting_with. f_equal.
  induction url as [|c url IH]; [reflexivity|].
  cbn [split map]. destruct (c =? semicolon).
  - pose proof (split_not_nil semicolon url) as Hnn.
    destruct (split semicolon url) as [|seg segs] eqn:E; [congruence|].
    rewrite join_cons, IH. reflexivity.
  - pose proof (split_not_nil semicolon url) as Hnn.
    destruct (split semicolon url) as [|seg segs] eqn:E; [congruence|].
    rewrite <- IH. destruct segs; reflexivity.
Qed.

End ResolverBehaviour.

(** ** Further behaviour of the prediction dispatcher *)

Section DispatcherBehaviour.

Context {rt : Runtime}.

Lemma jsstring_eqb_eq (a b : jsstring) : jsstring_eqb a b = true <-> a = b.
Proof.
  revert b. induction a as [|x a IH]; destruct b as [|y b]; simpl;
    try (split; [discriminate|discriminate]); [tauto|].
  rewrite andb_true_iff, N.eqb_eq, IH. split.
  - now intros [-> ->].
  - intros H. now inversion H.
Qed.

Lemma jsstring_eqb_neq (a b : jsstring) : a <> b -> jsstring_eqb a b = false.
Proof.
  intros H. destruct (jsstring_eqb a b) eqn:E; [|reflexivity].
  now apply jsstring_eqb_eq in E.
Qed.

Lemma lookup_absent (props : list (jsstring * JSValue)) (k : jsstring) :
  ~ In k (map fst props) -> lookup props k = JUndefined.
Proof.
  induction props as [|[k' v] props IH]; simpl; intros H; [reflexivity|].
  rewrite jsstring_eqb_neq by tauto. apply IH. tauto.
Qed.

Lemma has_own_absent (props : list (jsstring * JSValue)) (k : jsstring) :
  ~ In k (map fst props) -> has_own props k = false.
Proof.
  induction props as [|[k' v] props IH]; simpl; intros H; [reflexivity|].
  rewrite jsstring_eqb_neq by tauto. apply IH. tauto.
Qed.

(** A property read leaves the state alone. *)
Lemma get_state (v : JSValue) (k : jsstring) (st : State) : snd (get v k st) = st.
Proof. unfold get. now destruct (nullish v). Qed.

(** The messages of this module's own errors about a request all start with
    the prefix, which "Invalid input" does not. *)
Lemma prefixed_is_not_invalid (A : Type) (rest : jsstring) :
  @Throw A (Error (errorPrefix ++ rest)) <> Throw (Error (lit "Invalid input")).
Proof. intros H. cbn in H. discriminate. Qed.

(** What building the form adds to the trace, by payload. *)
Lemma getFormData_image_trace (path : jsstring) (o : option jsstring)
  (config : JSValue) (st : State) :
  trace (snd (getFormData {| imagePath := Some path; text := o |} config st))
  = trace st ++ [EvReadFile path].
Proof.
  unfold getFormData, bind, readFile, ret. cbn [imagePath].
  now destruct (fs_readFile path (world st)) as [[e|bytes] w].
Qed.

Lemma getFormData_text_run (t : jsstring) (config : JSValue) (st : State) :
  getFormData {| imagePath := None; text := Some t |} config st
  = (Ok [(lit "entries", FormString (JSON_stringify config));
         (lit "text", FormString t)], st).
Proof. reflexivity. Qed.

(** What [predict] adds once the form is built: no file read, and at most the
    one POST that carries the form. *)
Lemma predict_events
  (url : jsstring) (payload : ModelPayload) (config : JSValue) (st : State) :
  exists tr',
    trace (snd (predict url payload config st))
    = trace (snd (getFormData payload config st)) ++ tr'
    /\ reads tr' = []
    /\ (posts tr' = []
        \/ exists target formData st1,
            getFormData payload config st = (Ok formData, st1)
            /\ posts tr' = [mkPOST target formData]).
Proof.
  unfold predict. unfold bind at 1.
  destruct (getFormData payload config st) as [[formData|e] st1] eqn:Hform;
    cbn [snd]; [|exists []; rewrite app_nil_r; auto].
  unfold bind at 1. unfold logger_debug at 1. unfold bind at 1.
  unfold find_working_server.
  set (st1' := emit (EvDebug (predicting_with url)) st1).
  destruct (scan_trace (candidates url) st1') as (tr2 & Htr2 & Hp2).
  destruct (scan_reads (candidates url) st1') as (tr2' & Htr2' & Hr2).
  assert (tr2' = tr2) as -> by (rewrite Htr2 in Htr2'; now apply app_inv_head in Htr2').
  destruct (scan (candidates url) st1') as [[workingurl|e] st2]; cbn [snd] in Htr2.
  - unfold bind at 1. unfold new_URL.
    destruct (URL_new (lit "/predict") workingurl) as [target|].
    + exists (EvDebug (predicting_with url) :: tr2
              ++ [EvFetch (mkPOST target formData)]).
      split; [|split].
      * unfold ret at 1. unfold bind, catch, fetch, throw.
        destruct (net_fetch (mkPOST target formData) (world st2)) as [[res|e] w3];
          [destruct (400 <=? status res);
           [|unfold res_json; destruct (json_body res)]|];
          unfold ret, throw; cbn [snd trace]; rewrite Htr2;
          unfold st1', emit; cbn [trace]; now rewrite <- !app_assoc.
      * change (EvDebug (predicting_with url) :: tr2 ++ [EvFetch (mkPOST target formData)])
          with ([EvDebug (predicting_with url)] ++ tr2 ++ [EvFetch (mkPOST target formData)]).
        now rewrite !reads_app, Hr2.
      * right. exists target, formData, st1. split; [reflexivity|].
        change (EvDebug (predicting_with url) :: tr2 ++ [EvFetch (mkPOST target formData)])
          with ([EvDebug (predicting_with url)] ++ tr2 ++ [EvFetch (mkPOST target formData)]).
        now rewrite !posts_app, Hp2.
    + exists (EvDebug (predicting_with url) :: tr2). unfold throw. cbn [snd].
      split; [|split].
      * rewrite Htr2. unfold st1', emit. cbn [trace]. now rewrite <- app_assoc.
      * change (EvDebug (predicting_with url) :: tr2)
          with ([EvDebug (predicting_with url)] ++ tr2).
        now rewrite reads_app, Hr2.
      * left. change (EvDebug (predicting_with url) :: tr2)
          with ([EvDebug (predicting_with url)] ++ tr2).
        now rewrite posts_app, Hp2.
  - exists (EvDebug (predicting_with url) :: tr2). cbn [snd]. split; [|split].
    + rewrite Htr2. unfold st1', emit. cbn [trace]. now rewrite <- app_assoc.
    + change (EvDebug (predicting_with url) :: tr2)
        with ([EvDebug (predicting_with url)] ++ tr2).
      now rewrite reads_app, Hr2.
    + left. change (EvDebug (predicting_with url) :: tr2)
        with ([EvDebug (predicting_with url)] ++ tr2).
      now rewrite posts_app, Hp2.
Qed.

(** A payload with a variant never makes [predict] report invalid input. *)
Lemma predict_not_invalid
  (url : jsstring) (payload : ModelPayload) (config : JSValue) (st : State) :
  imagePath payload <> None \/ text payload <> None ->
  fst (predict url payload config st) <> Throw (Error (lit "Invalid input")).
Proof.
  intros Hvariant. unfold predict. unfold bind at 1.
  assert (Hform : (exists fd st1, getFormData payload config st = (Ok fd, st1))
                  \/ (exists e st1, getFormData payload config st
                                    = (Throw (Rejection e), st1))).
  { unfold getFormData.
    destruct (imagePath payload) as [path|].
    - unfold bind, readFile, ret.
      destruct (fs_readFile path (world st)) as [[e|bytes] w]; eauto.
    - destruct (text payload); [left; unfold ret; eauto|].
      destruct Hvariant; congruence. }
  destruct Hform as [(fd & st1 & ->)|(e & st1 & ->)]; [|discriminate].
  unfold bind at 1. unfold logger_debug at 1. unfold bind at 1.
  destruct (resolver_ends url (emit (EvDebug (predicting_with url)) st1))
    as [(workingurl & st2 & -> & _)|(st2 & ->)];
    [|cbn [fst]; apply prefixed_is_not_invalid].
  unfold bind at 1. unfold new_URL.
  destruct (URL_new (lit "/predict") workingurl) as [target|]; [|discriminate].
  unfold ret at 1. unfold bind, catch, fetch, throw.
  destruct (net_fetch (mkPOST target fd) (world st2)) as [[res|e] w3].
  - destruct (400 <=? status res); [cbn [fst]; apply prefixed_is_not_invalid|].
    unfold res_json, ret, throw. destruct (json_body res); discriminate.
  - cbn [fst]. apply prefixed_is_not_invalid.
Qed.

(** X12: when the image file cannot be read, [predict] fails with the
    file system's own rejection, right after the read: nothing is logged and
    no request is sent, whether or not a text string came with the payload. *)
Theorem predict_unreadable_image
  (url path : jsstring) (payload : ModelPayload) (config : JSValue)
  (st : State) (e : Foreign) (w : World) :
  imagePath payload = Some path ->
  fs_readFile path (world st) = (inl e, w) ->
  predict url payload config st
  = (Throw (Rejection e),
     {| world := w; trace := trace st ++ [EvReadFile path] |}).
Proof.
  intros Hpath Hread. unfold predict. unfold bind at 1.
  unfold getFormData. rewrite Hpath. unfold bind, readFile.
  now rewrite Hread.
Qed.

(** X13: when the form is built and no candidate is live, [predict] fails
    with the resolver's "no machine learning server found" error, unchanged,
    having probed every candidate once and sent no POST. *)
Theorem predict_no_server
  (url : jsstring) (payload : ModelPayload) (config : JSValue) (st : State)
  (formData : FormData) (st1 : State) :
  getFormData payload config st = (Ok formData, st1) ->
  all_dead (candidates url) (world st1) = true ->
  exists st2,
    predict url payload config st
    = (Throw (Error (lit "Machine learning request: no machine learning server found.")),
       st2)
    /\ fetches (trace st2) = fetches (trace st) ++ map mkGET (candidates url)
    /\ posts (trace st2) = posts (trace st).
Proof.
  intros Hform Hdead.
  destruct (getFormData_trace payload config st) as (tr1 & Htr1 & Hf1).
  rewrite Hform in Htr1. cbn [snd] in Htr1.
  destruct (scan_dead (candidates url) []
              (emit (EvDebug (predicting_with url)) st1) Hdead)
    as (tr2 & Hrun & Hf2 & Hp2).
  rewrite app_nil_r in Hrun.
  eexists. split; [|split].
  - unfold predict. unfold bind at 1. rewrite Hform.
    unfold bind at 1. unfold logger_debug at 1. unfold bind at 1.
    unfold find_working_server. rewrite Hrun. reflexivity.
  - unfold emit. cbn [trace]. rewrite Htr1, !fetches_app, Hf1, Hf2.
    cbn. now rewrite !app_nil_r.
  - unfold emit. cbn [trace]. rewrite Htr1, !posts_app, Hp2.
    unfold posts at 2 3. rewrite Hf1. cbn. now rewrite !app_nil_r.
Qed.

(** X14: when an address is resolved and the URL constructor refuses it as a
    base for [/predict], [predict] throws that [TypeError] in the state the
    resolver left: no POST is sent. *)
Theorem predict_invalid_base
  (url : jsstring) (payload : ModelPayload) (config : JSValue) (st : State)
  (formData : FormData) (st1 : State) (workingurl : jsstring) (st2 : State) :
  getFormData payload config st = (Ok formData, st1) ->
  find_working_server url (emit (EvDebug (predicting_with url)) st1)
  = (Ok workingurl, st2) ->
  URL_new (lit "/predict") workingurl = None ->
  predict url payload config st = (Throw (TypeError (lit "Invalid URL")), st2)
  /\ posts (trace st2) = posts (trace st).
Proof.
  intros Hform Hfind Hurl. split.
  - unfold predict. unfold bind at 1. rewrite Hform.
    unfold bind at 1. unfold logger_debug at 1. unfold bind at 1.
    rewrite Hfind. unfold bind at 1. unfold new_URL. now rewrite Hurl.
  - destruct (getFormData_trace payload config st) as (tr1 & Htr1 & Hf1).
    rewrite Hform in Htr1. cbn [snd] in Htr1.
    destruct (scan_trace (candidates url)
                (emit (EvDebug (predicting_with url)) st1)) as (tr2 & Htr2 & Hp2).
    unfold find_working_server in Hfind. rewrite Hfind in Htr2.
    cbn [snd] in Htr2. rewrite Htr2. unfold emit. cbn [trace].
    rewrite Htr1, !posts_app, Hp2. unfold posts at 2 3. rewrite Hf1.
    cbn. now rewrite !app_nil_r.
Qed.

(** X15: no run of [predict] sends more than one POST, and a POST it sends
    carries the form that [getFormData] built for this call. *)
Theorem predict_at_most_one_post
  (url : jsstring) (payload : ModelPayload) (config : JSValue) (st : State) :
  exists sent,
    posts (trace (snd (predict url payload config st))) = posts (trace st) ++ sent
    /\ (sent = []
        \/ exists target formData st1,
            getFormData payload config st = (Ok formData, st1)
            /\ sent = [{| req_url := target; req_method := POST;
                          req_body := Some formData |}]).
Proof.
  destruct (predict_events url payload config st) as (tr' & Htr & _ & Hposts).
  destruct (getFormData_trace payload config st) as (tr1 & Htr1 & Hf1).
  exists (posts tr'). split; [|exact Hposts].
  rewrite Htr, Htr1, !posts_app. unfold posts at 2. rewrite Hf1.
  cbn. now rewrite app_nil_r.
Qed.

(** X16: the three public operations never fail with "Invalid input": each
    hands [predict] a payload with exactly one variant. *)
Theorem operations_never_invalid_input
  (url arg : jsstring) (opts : FaceDetectionOptions) (cfg : CLIPConfig)
  (st : State) :
  fst (detectFaces url arg opts st) <> Throw (Error (lit "Invalid input"))
  /\ fst (encodeImage url arg cfg st) <> Throw (Error (lit "Invalid input"))
  /\ fst (encodeText url arg cfg st) <> Throw (Error (lit "Invalid input")).
Proof.
  assert (Himage : imagePath (image_payload arg) <> None \/
                   text (image_payload arg) <> None) by (left; discriminate).
  assert (Htext : imagePath (text_payload arg) <> None \/
                  text (text_payload arg) <> None) by (right; discriminate).
  split; [|split].
  - pose proof (predict_not_invalid url _ (face_request opts) st Himage) as H.
    unfold detectFaces, bind.
    destruct (predict url (image_payload arg) (face_request opts) st)
      as [[response|e] st']; [|exact H].
    unfold get, ret, throw. destruct (nullish response); discriminate.
  - pose proof (predict_not_invalid url _ (visual_request cfg) st Himage) as H.
    unfold encodeImage, bind.
    destruct (predict url (image_payload arg) (visual_request cfg) st)
      as [[response|e] st']; [|exact H].
    unfold get, ret, throw. destruct (nullish response); discriminate.
  - pose proof (predict_not_invalid url _ (textual_request cfg) st Htext) as H.
    unfold encodeText, bind.
    destruct (predict url (text_payload arg) (textual_request cfg) st)
      as [[response|e] st']; [|exact H].
    unfold get, ret, throw. destruct (nullish response); discriminate.
Qed.

(** X17: [encodeText] never reads a file; [detectFaces] and [encodeImage]
    read exactly one, the image path they were given, and that read is the
    first thing they do. *)
Theorem operations_file_reads
  (url arg : jsstring) (opts : FaceDetectionOptions) (cfg : CLIPConfig)
  (st : State) :
  reads (trace (snd (encodeText url arg cfg st))) = reads (trace st)
  /\ (exists tr',
         trace (snd (encodeImage url arg cfg st))
         = trace st ++ EvReadFile arg :: tr'
         /\ reads tr' = [])
  /\ (exists tr',
         trace (snd (detectFaces url arg opts st))
         = trace st ++ EvReadFile arg :: tr'
         /\ reads tr' = []).
Proof.
  assert (Hbind : forall (m : M JSValue) (k : JSValue -> M JSValue),
             (forall v s, snd (k v s) = s) -> snd (bind m k st) = snd (m st)).
  { intros m k Hk. unfold bind. destruct (m st) as [[v|e] s]; [apply Hk|reflexivity]. }
  split; [|split].
  - unfold encodeText. rewrite Hbind by (intros; apply get_state).
    destruct (predict_events url (text_payload arg) (textual_request cfg) st)
      as (tr' & -> & Hr & _).
    unfold text_payload. rewrite getFormData_text_run. cbn [snd].
    now rewrite reads_app, Hr, app_nil_r.
  - unfold encodeImage. rewrite Hbind by (intros; apply get_state).
    destruct (predict_events url (image_payload arg) (visual_request cfg) st)
      as (tr' & -> & Hr & _).
    unfold image_payload. rewrite getFormData_image_trace, <- app_assoc.
    exists tr'. now split.
  - unfold detectFaces. rewrite Hbind.
    + destruct (predict_events url (image_payload arg) (face_request opts) st)
        as (tr' & -> & Hr & _).
      unfold image_payload. rewrite getFormData_image_trace, <- app_assoc.
      exists tr'. now split.
    + intros v s. unfold bind, get, ret, throw.
      now destruct (nullish v).
Qed.

(** X18: when the decoded response is an object without the search
    property, [encodeImage] and [encodeText] do not fail: they return
    [undefined]. *)
Theorem encode_missing_branch_is_undefined
  (url : jsstring) (st st' : State) (props : list (jsstring * JSValue)) :
  ~ In (ModelTask_value SEARCH) (map fst props) ->
  (forall imagePath cfg,
      predict url (image_payload imagePath) (visual_request cfg) st
      = (Ok (JObject props), st') ->
      encodeImage url imagePath cfg st = (Ok JUndefined, st'))
  /\ (forall text cfg,
         predict url (text_payload text) (textual_request cfg) st
         = (Ok (JObject props), st') ->
         encodeText url text cfg st = (Ok JUndefined, st')).
Proof.
  intros Habsent.
  assert (Hprop : prop (JObject props) (ModelTask_value SEARCH) = JUndefined).
  { cbn [prop]. rewrite has_own_absent by exact Habsent.
    now rewrite ModelTask_value_plain. }
  split.
  - intros imagePath cfg Hrun. unfold encodeImage, bind, get, ret.
    rewrite Hrun. cbn [nullish]. now rewrite Hprop.
  - intros text cfg Hrun. unfold encodeText, bind, get, ret.
    rewrite Hrun. cbn [nullish]. now rewrite Hprop.
Qed.

(** X19: when the enum values of the detection and recognition model types
    differ, the request [detectFaces] builds has one facial-recognition entry
    holding the model name with the minimum score under detection and the
    model name alone under recognition, in this order. *)
Theorem face_request_shape (opts : FaceDetectionOptions) :
  ModelType_value DETECTION <> ModelType_value RECOGNITION ->
  face_request opts
  = JObject
      [(ModelTask_value FACIAL_RECOGNITION,
        JObject
          [(ModelType_value DETECTION,
            JObject [(lit "modelName", JString (fd_modelName opts));
                     (lit "options",
                      JObject [(lit "minScore", JNumber (fd_minScore opts))])]);
           (ModelType_value RECOGNITION,
            JObject [(lit "modelName", JString (fd_modelName opts))])])].
Proof.
  intros Hne. unfold face_request, object. cbn [fold_left set_prop fst snd].
  rewrite (jsstring_eqb_neq _ _ Hne). reflexivity.
Qed.

End DispatcherBehaviour.

(** ** The further behaviour at work in the concrete runtimes *)

(** In [" http://a ; http://b;http://c"] the address returned is [http://b],
    trimmed of the blanks around it. *)
Lemma resolved_address_is_clean_witness :
  ~ In semicolon host_b /\ trim host_b = host_b.
Proof.
  edestruct (resolved_address_is_clean (rt := runtime up) three_hosts (fresh up)
               (snd (find_working_server (rt := runtime up) three_hosts (fresh up)))
               host_b) as (Hsep & _ & _ & Htrim);
    [reflexivity|].
  split; [exact Hsep | exact Htrim].
Defined.

(** The run that returns [http://b] found the candidates before it dead. *)
Lemma find_working_server_success_sound_witness :
  exists pre post,
    candidates three_hosts = pre ++ host_b :: post
    /\ all_dead (rt := runtime up) pre tt = true.
Proof.
  edestruct (find_working_server_success_sound (rt := runtime up)
               three_hosts (fresh up)
               (snd (find_working_server (rt := runtime up) three_hosts (fresh up)))
               host_b) as (pre & post & Hc & Hd & _);
    [reflexivity|].
  exists pre, post. split; [exact Hc | exact Hd].
Defined.

(** The failing run over ["http://a;http://b"] found both candidates dead. *)
Lemma find_working_server_failure_sound_witness :
  all_dead (rt := runtime net_down) (candidates two_hosts) tt = true.
Proof.
  edestruct (find_working_server_failure_sound (rt := runtime net_down)
               two_hosts (fresh net_down)
               (snd (find_working_server (rt := runtime net_down) two_hosts
                       (fresh net_down)))
               (Error no_server_found)) as (_ & Hdead & _);
    [reflexivity|].
  exact Hdead.
Defined.

(** [http://c] appended to ["http://a;http://b"] is never reached. *)
Lemma find_working_server_prefix_wins_witness :
  find_working_server (rt := runtime up)
    (two_hosts ++ semicolon :: host_c) (fresh up)
  = find_working_server (rt := runtime up) two_hosts (fresh up).
Proof.
  rewrite (find_working_server_prefix_wins (rt := runtime up)
             two_hosts host_c (fresh up)
             (snd (find_working_server (rt := runtime up) two_hosts (fresh up)))
             host_b eq_refl).
  reflexivity.
Defined.

(** With [http://a] timing out, ["http://a;http://b"] is resolved as
    [http://b] is, after the failed probe of [a]. *)
Lemma find_working_server_falls_back_witness :
  find_working_server (rt := runtime up)
    (host_a ++ semicolon :: host_b) (fresh up)
  = find_working_server (rt := runtime up) host_b
      (after up [EvFetch (mkGET host_a);
                 EvWarn (ping_failed host_a (Rejection timeout))]).
Proof.
  eapply (find_working_server_falls_back (rt := runtime up)
            host_a host_b (fresh up)).
  reflexivity.
Defined.

(** A probe answered 204 leaves the request as its only trace. *)
Lemma non_200_probe_is_skipped_silently_witness :
  scan (rt := runtime net_b_no_content) [host_b; host_a] (fresh net_b_no_content)
  = scan (rt := runtime net_b_no_content) [host_a]
      (after net_b_no_content [EvFetch (mkGET host_b)]).
Proof.
  eapply (non_200_probe_is_skipped_silently (rt := runtime net_b_no_content)
            host_b [host_a] (fresh net_b_no_content)).
  - reflexivity.
  - cbn. discriminate.
Defined.

(** The address string [http://b] is probed as it is, once. *)
Lemma single_address_is_probed_once_witness :
  candidates host_b = [host_b]
  /\ fetches (trace (snd (find_working_server (rt := runtime up) host_b (fresh up))))
     = [mkGET host_b].
Proof.
  apply (single_address_is_probed_once (rt := runtime up) host_b (fresh up)).
  - cbv. intuition discriminate.
  - reflexivity.
Defined.

(** A missing image file fails the call before the network is touched. *)
Lemma predict_unreadable_image_witness :
  predict (rt := runtime up) two_hosts (image_payload (lit "/missing.jpg"))
    clip_request (fresh up)
  = (Throw (Rejection no_such_file), after up [EvReadFile (lit "/missing.jpg")]).
Proof.
  apply (predict_unreadable_image (rt := runtime up) two_hosts
           (lit "/missing.jpg") (image_payload (lit "/missing.jpg"))
           clip_request (fresh up) no_such_file tt); reflexivity.
Defined.

(** With no live server the call ends in the resolver's error, no POST sent. *)
Lemma predict_no_server_witness :
  exists st2,
    predict (rt := runtime net_down) two_hosts (text_payload (lit "hello world"))
      clip_request (fresh net_down)
    = (Throw (Error (lit "Machine learning request: no machine learning server found.")),
       st2)
    /\ posts (trace st2) = [].
Proof.
  edestruct (predict_no_server (rt := runtime net_down) two_hosts
               (text_payload (lit "hello world")) clip_request (fresh net_down))
    as (st2 & Hrun & _ & Hposts); [reflexivity | reflexivity |].
  exists st2. split; [exact Hrun | exact Hposts].
Defined.

(** The address [data:text/plain,x] answers its probe with status 200 and
    is refused as a base: the call ends in the constructor's error, no POST
    sent. *)
Lemma predict_invalid_base_witness :
  exists st2,
    predict (rt := runtime net_data) data_url (text_payload (lit "hello world"))
      clip_request (fresh net_data)
    = (Throw (TypeError (lit "Invalid URL")), st2)
    /\ posts (trace st2) = [].
Proof.
  eexists.
  eapply (predict_invalid_base (rt := runtime net_data) data_url
            (text_payload (lit "hello world")) clip_request (fresh net_data));
    reflexivity.
Defined.

(** An address with a path: [/predict] replaces the path, and the POST goes
    to [http://b/predict]. *)
Example predict_replaces_path :
  map req_url
    (posts (trace (snd (predict (rt := runtime net_b_path) host_b_ml
                          (text_payload (lit "hello world")) clip_request
                          (fresh net_b_path)))))
  = [lit "http://b/predict"].
Proof. reflexivity. Qed.

(** A server answering [{}] makes [encodeText] return [undefined]. *)
Lemma encode_missing_branch_is_undefined_witness :
  exists st',
    encodeText (rt := runtime empty_up) two_hosts (lit "hello world")
      clip_base (fresh empty_up)
    = (Ok JUndefined, st').
Proof.
  eexists.
  refine (proj2 (encode_missing_branch_is_undefined (rt := runtime empty_up)
                   two_hosts (fresh empty_up) _ [] (fun H => H))
            (lit "hello world") clip_base _).
  reflexivity.
Defined.

(** The request for the model [m] with minimum score 0.5. *)
Lemma face_request_shape_witness :
  face_request (rt := runtime up) face_options
  = JObject
      [(lit "facial_recognition",
        JObject
          [(lit "detection",
            JObject [(lit "modelName", JString (lit "m"));
                     (lit "options", JObject [(lit "minScore", JNumber 0.5)])]);
           (lit "recognition", JObject [(lit "modelName", JString (lit "m"))])])].
Proof.
  apply (face_request_shape (rt := runtime up) face_options).
  cbv. discriminate.
Defined.
